(** * LC-3 virtual machine (lc3.c): shallow embedding and verified properties

    The C program keeps two global arrays, [memory] (65536 cells) and [reg]
    (R_COUNT = 10 cells), of [uint16_t].  Values are modelled as [Z] with
    the conversion to [uint16_t] written out as [w16]; the register file is
    a list updated by index, the address space a finite map whose absent
    keys read as the zero a C global starts with.

    lc3.c calls five functions it does not define ([mem_read],
    [read_image], [handle_interrupt], [disable_input_buffering],
    [restore_input_buffering]) and leaves twelve opcode bodies as
    placeholders.  The functions that act on the machine state are the
    fields of the class [External]; the terminal calls are recorded in the
    trace of the process. *)

From Stdlib Require Import ZArith Lia Bool.
From stdpp Require Import base option list gmap strings.

Local Open Scope Z_scope.

(** ** Fixed-width values *)

(** Conversion of an [int] to [uint16_t]. *)
Definition w16 (z : Z) : Z := z mod 65536.

Definition is_word (z : Z) : Prop := 0 <= z < 65536.

(** ** Registers, flags, opcodes (the three enums of lc3.c) *)

Definition R_R0 : Z := 0.
Definition R_R7 : Z := 7.
Definition R_PC : Z := 8.
Definition R_COND : Z := 9.
Definition R_COUNT : Z := 10.

Definition FL_POS : Z := Z.shiftl 1 0.
Definition FL_ZRO : Z := Z.shiftl 1 1.
Definition FL_NEG : Z := Z.shiftl 1 2.

Inductive opcode : Set :=
  | OP_BR | OP_ADD | OP_LD | OP_ST | OP_JSR | OP_AND | OP_LDR | OP_STR
  | OP_RTI | OP_NOT | OP_LDI | OP_STI | OP_JMP | OP_RES | OP_LEA | OP_TRAP.

(** The value each enumerator has in the C enum. *)
Definition opcode_value (o : opcode) : Z :=
  match o with
  | OP_BR => 0 | OP_ADD => 1 | OP_LD => 2 | OP_ST => 3
  | OP_JSR => 4 | OP_AND => 5 | OP_LDR => 6 | OP_STR => 7
  | OP_RTI => 8 | OP_NOT => 9 | OP_LDI => 10 | OP_STI => 11
  | OP_JMP => 12 | OP_RES => 13 | OP_LEA => 14 | OP_TRAP => 15
  end.

(** The case label, if any, that [switch (op)] selects; [None] is the
    [default] label. *)
Definition switch_case (op : Z) : option opcode :=
  match op with
  | 0 => Some OP_BR | 1 => Some OP_ADD | 2 => Some OP_LD | 3 => Some OP_ST
  | 4 => Some OP_JSR | 5 => Some OP_AND | 6 => Some OP_LDR | 7 => Some OP_STR
  | 8 => Some OP_RTI | 9 => Some OP_NOT | 10 => Some OP_LDI | 11 => Some OP_STI
  | 12 => Some OP_JMP | 13 => Some OP_RES | 14 => Some OP_LEA | 15 => Some OP_TRAP
  | _ => None
  end.

(** ** sign_extend

    [x] is promoted to [int] for the shift and the or; [0xFFFF << bit_count]
    is an [int], exact for [bit_count <= 15]; the assignment back to the
    [uint16_t] variable truncates. *)
Definition sign_extend (x : Z) (bit_count : Z) : Z :=
  if negb (Z.land (Z.shiftr x (bit_count - 1)) 1 =? 0)
  then w16 (Z.lor x (Z.shiftl 0xFFFF bit_count))
  else x.

(** ** Reading values as two's complement (used to state the properties) *)

(** The [w] low bits set. *)
Definition mask (w : Z) : Z := Z.shiftl 1 w - 1.

(** A [w]-bit pattern [n] read as a signed number. *)
Definition signed (w : Z) (n : Z) : Z :=
  if n <? 2 ^ (w - 1) then n else n - 2 ^ w.

(** The flag that stands for the sign of a 16-bit value read as two's
    complement. *)
Definition flag_of (v : Z) : Z :=
  if signed 16 v =? 0 then FL_ZRO
  else if signed 16 v <? 0 then FL_NEG
  else FL_POS.

(** The flags among NEGATIVE, ZERO and POSITIVE that a value of the
    condition register has set. *)
Definition flags_held (c : Z) : list Z :=
  filter (fun f => Z.land c f <> 0) [FL_NEG; FL_ZRO; FL_POS].

(** ** Machine state *)

(** [memory] and [reg] are the two global arrays.  [kbd] is the external
    input device (the characters it still holds), which the absent
    [mem_read] polls; it is part of the state so that a function of the
    state can stand for [mem_read]. *)
Record Machine : Type := {
  memory : gmap Z Z;
  reg : list Z;
  kbd : list Z
}.

(** [memory[a]]: a cell never stored to holds the 0 of a C global. *)
Definition mem_get (m : Machine) (a : Z) : Z := default 0 (memory m !! a).

(** [memory[a] = v]. *)
Definition mem_set (a v : Z) (m : Machine) : Machine :=
  {| memory := <[a := w16 v]> (memory m); reg := reg m; kbd := kbd m |}.

(** [reg[r]].  Every index lc3.c uses is masked with 0x7 or is one of the
    constants R_PC, R_COND, so it is below R_COUNT; outside the array (not
    defined in C) the model reads 0. *)
Definition reg_get (m : Machine) (r : Z) : Z := default 0 (reg m !! Z.to_nat r).

(** [reg[r] = v], with the conversion of [v] to [uint16_t]. *)
Definition reg_set (r v : Z) (m : Machine) : Machine :=
  {| memory := memory m; reg := <[Z.to_nat r := w16 v]> (reg m); kbd := kbd m |}.

(** The register file has its R_COUNT cells. *)
Definition wf (m : Machine) : Prop := length (reg m) = Z.to_nat R_COUNT.

(** Every cell of the register file holds a [uint16_t] value. *)
Definition regs_ok (m : Machine) : Prop :=
  wf m /\ Forall is_word (reg m).

(** ** update_flags *)
Definition update_flags (r : Z) (m : Machine) : Machine :=
  if reg_get m r =? 0 then reg_set R_COND FL_ZRO m
  else if negb (Z.shiftr (reg_get m r) 15 =? 0) then reg_set R_COND FL_NEG m
  else reg_set R_COND FL_POS m.

(** ** What lc3.c uses and does not define *)

(** How one pass through the body of [while (running)] ends: at the
    closing brace, with the value of the local [running], or in [abort()]. *)
Inductive Outcome : Type :=
  | Done (running : bool) (m : Machine)
  | Abort (m : Machine).

(** [mem_read] takes a [uint16_t] address and may change the state (it
    polls the keyboard); [op_body o instr] is the body that the placeholder
    of opcode [o] stands for, run on the fetched word; [read_image] loads
    one file and returns [None] when the C function returns 0. *)
Class External : Type := {
  mem_read : Z -> Machine -> Z * Machine;
  op_body : opcode -> Z -> Machine -> Outcome;
  read_image : string -> Machine -> option Machine
}.

(** ** The body of the switch: decode and execute one fetched word *)

(** Operand fields, as the cases extract them. *)
Definition field_dr (instr : Z) : Z := Z.land (Z.shiftr instr 9) 0x7.
Definition field_sr1 (instr : Z) : Z := Z.land (Z.shiftr instr 6) 0x7.
Definition field_imm_flag (instr : Z) : Z := Z.land (Z.shiftr instr 5) 0x1.
Definition field_sr2 (instr : Z) : Z := Z.land instr 0x7.

Definition exec {E : External} (instr : Z) (m : Machine) : Outcome :=
  let op := Z.shiftr instr 12 in
  match switch_case op with
  | Some OP_ADD =>
      let r0 := field_dr instr in
      let r1 := field_sr1 instr in
      let imm_flag := field_imm_flag instr in
      let m1 :=
        if negb (imm_flag =? 0) then
          let imm5 := sign_extend (Z.land instr 0x1F) 5 in
          reg_set r0 (reg_get m r1 + imm5) m
        else
          let r2 := field_sr2 instr in
          reg_set r0 (reg_get m r1 + reg_get m r2) m in
      Done true (update_flags r0 m1)
  | Some OP_AND =>
      let r0 := field_dr instr in
      let r1 := field_sr1 instr in
      let imm_flag := field_imm_flag instr in
      let m1 :=
        if negb (imm_flag =? 0) then
          let imm5 := sign_extend (Z.land instr 0x1F) 5 in
          reg_set r0 (Z.land (reg_get m r1) imm5) m
        else
          let r2 := field_sr2 instr in
          reg_set r0 (Z.land (reg_get m r1) (reg_get m r2)) m in
      Done true (update_flags r0 m1)
  | Some OP_LDI =>
      let r0 := field_dr instr in
      let pc_offset := sign_extend (Z.land instr 0x1FF) 9 in
      let '(a, m1) := mem_read (w16 (reg_get m R_PC + pc_offset)) m in
      let '(v, m2) := mem_read (w16 a) m1 in
      Done true (update_flags r0 (reg_set r0 v m2))
  | Some OP_RES | Some OP_RTI | None => Abort m
  | Some o => op_body o instr m
  end.

(** The second operand of ADD and AND: the immediate in immediate mode,
    the second source register otherwise. *)
Definition operand2 (instr : Z) (m : Machine) : Z :=
  if negb (field_imm_flag instr =? 0)
  then sign_extend (Z.land instr 0x1F) 5
  else reg_get m (field_sr2 instr).

(** A load of the cell at [address] into register [dr] with the flags set
    from it: what the specification calls a direct load (the LD case is a
    placeholder in lc3.c). *)
Definition direct_load {E : External} (dr address : Z) (m : Machine) : Machine :=
  let '(v, m') := mem_read address m in
  update_flags dr (reg_set dr v m').

(** ** The loop *)

(** FETCH, then the switch: [instr = mem_read(reg[R_PC]++)].  The argument
    is the old PC and the increment is complete before the call. *)
Definition cycle {E : External} (m : Machine) : Outcome :=
  let pc := reg_get m R_PC in
  let '(v, m1) := mem_read (w16 pc) (reg_set R_PC (pc + 1) m) in
  exec (w16 v) m1.

(** How the loop was left: [running] became 0, or [abort()] was called;
    [LoopFuel] is the model running out of steps. *)
Inductive LoopEnd : Set := LoopExit | LoopAbort | LoopFuel.

(** [run fuel m] gives the way the loop ends, the state then, and the
    number of fetches made. *)
Fixpoint run {E : External} (fuel : nat) (m : Machine) : LoopEnd * Machine * nat :=
  match fuel with
  | O => (LoopFuel, m, O)
  | S fuel' =>
      match cycle m with
      | Abort m' => (LoopAbort, m', 1%nat)
      | Done false m' => (LoopExit, m', 1%nat)
      | Done true m' =>
          let '(e, mf, n) := run fuel' m' in (e, mf, S n)
      end
  end.

(** ** main *)

(** Calls to the terminal and signal functions, and [printf], in order.
    [handle_interrupt] runs only when a SIGINT arrives and is not in
    lc3.c; the model has no signal delivery. *)
Inductive Event : Type :=
  | EvPrint (s : string)
  | EvSignal
  | EvDisableInputBuffering
  | EvRestoreInputBuffering.

Inductive Status : Type :=
  | Exited (code : Z)
  | Aborted
  | Unfinished.

Record Process : Type := {
  status : Status;
  trace : list Event;
  cycles : nat;
  final : option Machine
}.

Definition PC_START : Z := 0x3000.

(** The globals before [main]: static storage is zero. *)
Definition power_on (input : list Z) : Machine :=
  {| memory := ∅; reg := replicate (Z.to_nat R_COUNT) 0; kbd := input |}.

(** The [for] loop over [argv[1..]]: the first path whose load fails, or
    the state after all loads. *)
Fixpoint load_images {E : External} (paths : list string) (m : Machine)
  : string + Machine :=
  match paths with
  | [] => inr m
  | p :: rest =>
      match read_image p m with
      | None => inl p
      | Some m' => load_images rest m'
      end
  end.

(** The part of [main] before the loop. *)
Inductive Startup : Type :=
  | Usage
  | LoadFailure (path : string)
  | Ready (m : Machine).

Definition startup {E : External} (argv : list string) (input : list Z) : Startup :=
  if (Z.of_nat (length argv) <? 2) then Usage
  else
    match load_images (tail argv) (power_on input) with
    | inl p => LoadFailure p
    | inr m => Ready (reg_set R_PC PC_START (reg_set R_COND FL_ZRO m))
    end.

Definition newline : string := String (Ascii.ascii_of_nat 10) EmptyString.

Definition main {E : External} (fuel : nat) (argv : list string) (input : list Z)
  : Process :=
  match startup argv input with
  | Usage =>
      {| status := Exited 2;
         trace := [EvPrint ("lc3 [image-file1] ..." ++ newline)];
         cycles := O; final := None |}
  | LoadFailure p =>
      {| status := Exited 1;
         trace := [EvPrint ("failed to load image: " ++ p ++ newline)];
         cycles := O; final := None |}
  | Ready m =>
      let '(e, mf, n) := run fuel m in
      match e with
      | LoopExit =>
          {| status := Exited 0;
             trace := [EvSignal; EvDisableInputBuffering; EvRestoreInputBuffering];
             cycles := n; final := Some mf |}
      | LoopAbort =>
          {| status := Aborted;
             trace := [EvSignal; EvDisableInputBuffering];
             cycles := n; final := Some mf |}
      | LoopFuel =>
          {| status := Unfinished;
             trace := [EvSignal; EvDisableInputBuffering];
             cycles := n; final := Some mf |}
      end
  end.

(** ** The absent parts, as the specification describes them

    These definitions give the class [External] an instance on which the
    model runs.  The theorems about [exec], [cycle] and [run] hold for
    every instance. *)

(** The two memory-mapped cells.  The specification says only that their
    addresses are fixed and adjacent; these are the LC-3 architecture's. *)
Definition MR_KBSR : Z := 0xFE00.
Definition MR_KBDR : Z := 0xFE02.

(** Modelled from the spec: [mem_read], called by lc3.c and not defined in
    it.  A read of the status cell polls the input device and, if a
    character is there, puts it in the data cell and sets the ready bit
    (bit 15) of the status cell; then the cell is read. *)
Definition mem_read_spec (address : Z) (m : Machine) : Z * Machine :=
  let m' :=
    if address =? MR_KBSR then
      match kbd m with
      | c :: rest =>
          {| memory := <[MR_KBDR := w16 c]>
                         (<[MR_KBSR := Z.shiftl 1 15]> (memory m));
             reg := reg m; kbd := rest |}
      | [] => m
      end
    else m in
  (mem_get m' address, m').

(** Modelled from the spec: the system routines behind TRAP, whose case is
    a placeholder in lc3.c.  The output device is not part of [Machine], so
    a routine that only writes to it leaves the machine as it is.  GETC and
    IN take one character into the low byte of R0; while the device has
    none the routine has not returned, which the model renders by leaving
    the PC on the TRAP word.  HALT clears [running].  An unknown vector
    does nothing. *)
Definition trap_spec (instr : Z) (m : Machine) : Outcome :=
  let vector := Z.land instr 0xFF in
  if (vector =? 0x20) || (vector =? 0x23) then
    match kbd m with
    | c :: rest =>
        Done true (reg_set R_R0 (Z.land c 0xFF)
                     {| memory := memory m; reg := reg m; kbd := rest |})
    | [] => Done true (reg_set R_PC (reg_get m R_PC - 1) m)
    end
  else if vector =? 0x25 then Done false m
  else Done true m.

(** Modelled from the spec: the bodies of the opcodes whose cases are
    placeholders in lc3.c (sections 4.3 to 4.6), with the fields at the
    LC-3 positions that the ADD, AND and LDI cases of lc3.c use.  ADD, AND,
    LDI, RTI and RES have their cases in lc3.c and never reach this
    function. *)
Definition op_body_spec (o : opcode) (instr : Z) (m : Machine) : Outcome :=
  let pc := reg_get m R_PC in
  let off9 := sign_extend (Z.land instr 0x1FF) 9 in
  let off6 := sign_extend (Z.land instr 0x3F) 6 in
  let dr := field_dr instr in
  let base := field_sr1 instr in
  match o with
  | OP_NOT =>
      Done true (update_flags dr (reg_set dr (Z.lxor (reg_get m base) 0xFFFF) m))
  | OP_BR =>
      if negb (Z.land (field_dr instr) (reg_get m R_COND) =? 0)
      then Done true (reg_set R_PC (pc + off9) m)
      else Done true m
  | OP_JMP => Done true (reg_set R_PC (reg_get m base) m)
  | OP_JSR =>
      let m1 := reg_set R_R7 pc m in
      if negb (Z.land (Z.shiftr instr 11) 1 =? 0)
      then Done true (reg_set R_PC (pc + sign_extend (Z.land instr 0x7FF) 11) m1)
      else Done true (reg_set R_PC (reg_get m1 base) m1)
  | OP_LD =>
      let '(v, m1) := mem_read_spec (w16 (pc + off9)) m in
      Done true (update_flags dr (reg_set dr v m1))
  | OP_LDR =>
      let '(v, m1) := mem_read_spec (w16 (reg_get m base + off6)) m in
      Done true (update_flags dr (reg_set dr v m1))
  | OP_LEA => Done true (update_flags dr (reg_set dr (pc + off9) m))
  | OP_ST => Done true (mem_set (w16 (pc + off9)) (reg_get m dr) m)
  | OP_STI =>
      let '(a, m1) := mem_read_spec (w16 (pc + off9)) m in
      Done true (mem_set (w16 a) (reg_get m1 dr) m1)
  | OP_STR => Done true (mem_set (w16 (reg_get m base + off6)) (reg_get m dr) m)
  | OP_TRAP => trap_spec instr m
  | OP_ADD | OP_AND | OP_LDI | OP_RTI | OP_RES => Abort m
  end.

(** [memory[a] = w] for the words [ws] at consecutive addresses from [a]. *)
Fixpoint store_words (a : Z) (ws : list Z) (mem : gmap Z Z) : gmap Z Z :=
  match ws with
  | [] => mem
  | w :: rest => store_words (a + 1) rest (<[a := w16 w]> mem)
  end.

(** The words of an image that have a cell: those from the origin up to
    the last address, 0xFFFF. *)
Definition image_body (origin : Z) (ws : list Z) : list Z :=
  take (Z.to_nat (65536 - w16 origin)) ws.

(** Modelled from the spec: [read_image], called by lc3.c and not defined
    in it (section 6).  [fs path] is the content of the file as its
    sequence of 16-bit words, already read big-endian, or [None] for a file
    that cannot be opened.  The first word is the origin and the following
    words go to consecutive addresses from there; a file without an origin
    word counts as a failed load. *)
Definition read_image_spec (fs : string -> option (list Z))
    (path : string) (m : Machine) : option Machine :=
  match fs path with
  | None => None
  | Some [] => None
  | Some (origin :: ws) =>
      Some {| memory := store_words (w16 origin) (image_body origin ws) (memory m);
              reg := reg m; kbd := kbd m |}
  end.

(** The addresses an image file writes. *)
Definition image_writes (origin : Z) (ws : list Z) (a : Z) : Prop :=
  w16 origin <= a < w16 origin + Z.of_nat (length (image_body origin ws)).

(** The addresses the loader writes for the paths given on the command
    line. *)
Definition loader_writes (fs : string -> option (list Z))
    (paths : list string) (a : Z) : Prop :=
  exists p origin ws,
    In p paths /\ fs p = Some (origin :: ws) /\ image_writes origin ws a.

#[export] Instance spec_external (fs : string -> option (list Z)) : External :=
  {| mem_read := mem_read_spec;
     op_body := op_body_spec;
     read_image := read_image_spec fs |}.

(** A file system for the examples: one image with origin 0x3000 holding
    ADD R0, R0, #5 followed by TRAP HALT, and one holding the reserved
    word 0x8000 alone. *)
Definition demo_fs (path : string) : option (list Z) :=
  if String.eqb path "add5.obj" then Some [0x3000; 0x1025; 0xF025]
  else if String.eqb path "rti.obj" then Some [0x3000; 0x8000]
  else None.

(** A machine just after the fetch at 0x3000, with the pointer 0x4000 in
    the cell 0x3002 and the value 0x8123 in the cell 0x4000. *)
Definition ldi_machine : Machine :=
  mem_set 0x4000 0x8123 (mem_set 0x3002 0x4000 (reg_set R_PC 0x3001 (power_on []))).

(** The machine that main hands to the loop for the image rti.obj. *)
Definition rti_machine : Machine :=
  reg_set R_PC PC_START (reg_set R_COND FL_ZRO (mem_set 0x3000 0x8000 (power_on []))).

(** The machine that main hands to the loop for the image add5.obj. *)
Definition add5_machine : Machine :=
  reg_set R_PC PC_START (reg_set R_COND FL_ZRO
    (mem_set 0x3001 0xF025 (mem_set 0x3000 0x1025 (power_on [])))).

(** The opcodes whose case in lc3.c is a placeholder. *)
Definition placeholder (o : opcode) : Prop :=
  ~ In o [OP_ADD; OP_AND; OP_LDI; OP_RTI; OP_RES].

(** The state a pass through the loop body ends in. *)
Definition outcome_state (r : Outcome) : Machine :=
  match r with
  | Done _ m => m
  | Abort m => m
  end.

(** ** Properties of sign_extend *)

Lemma w16_range z : is_word (w16 z).
Proof. unfold is_word, w16. apply Z.mod_pos_bound. lia. Qed.

Lemma w16_small z : is_word z -> w16 z = z.
Proof. unfold is_word, w16. intros H. apply Z.mod_small. lia. Qed.

Lemma sign_bit_test x w :
  1 <= w ->
  negb (Z.land (Z.shiftr x (w - 1)) 1 =? 0) = Z.testbit x (w - 1).
Proof.
  intros Hw.
  replace (Z.land (Z.shiftr x (w - 1)) 1)
    with (Z.b2z (Z.testbit x (w - 1))).
  - destruct (Z.testbit x (w - 1)); reflexivity.
  - rewrite Z.testbit_spec' by lia.
    rewrite Z.shiftr_div_pow2 by lia.
    change 1 with (Z.ones 1). rewrite Z.land_ones by lia.
    rewrite Z.pow_1_r. reflexivity.
Qed.

Lemma sign_extend_clear x w :
  1 <= w -> Z.testbit x (w - 1) = false -> sign_extend x w = x.
Proof.
  intros Hw Hb. unfold sign_extend. rewrite sign_bit_test by lia.
  rewrite Hb. reflexivity.
Qed.

Lemma sign_extend_set x w :
  1 <= w -> Z.testbit x (w - 1) = true ->
  sign_extend x w = w16 (Z.lor x (Z.shiftl 0xFFFF w)).
Proof.
  intros Hw Hb. unfold sign_extend. rewrite sign_bit_test by lia.
  rewrite Hb. reflexivity.
Qed.

(** Bit [i] of the result: the low [w] bits are those of [x]; when the sign
    bit is set every bit from [w] up to 15 is set. *)
Lemma sign_extend_testbit x w i :
  1 <= w <= 16 -> is_word x -> 0 <= i < 16 ->
  Z.testbit (sign_extend x w) i =
    if i <? w then Z.testbit x i
    else Z.testbit x i || Z.testbit x (w - 1).
Proof.
  intros Hw Hx Hi.
  destruct (Z.testbit x (w - 1)) eqn:Hb.
  - rewrite sign_extend_set by (lia || assumption).
    unfold w16. change 65536 with (2 ^ 16).
    rewrite Z.mod_pow2_bits_low by lia.
    rewrite Z.lor_spec, Z.shiftl_spec by lia.
    destruct (Z.ltb_spec i w).
    + rewrite (Z.testbit_neg_r _ (i - w)) by lia. apply orb_false_r.
    + change 0xFFFF with (Z.ones 16).
      rewrite Z.ones_spec_low by lia. reflexivity.
  - rewrite sign_extend_clear by (lia || assumption).
    destruct (i <? w); [reflexivity | now rewrite orb_false_r].
Qed.

Lemma pow2_split w : 1 <= w -> 2 ^ w = 2 * 2 ^ (w - 1).
Proof.
  intros Hw. replace w with (Z.succ (w - 1)) at 1 by lia.
  apply Z.pow_succ_r. lia.
Qed.

Lemma pow2_le_16 w : 0 <= w <= 16 -> 1 <= 2 ^ w <= 65536.
Proof.
  intros Hw. split.
  - pose proof (Z.pow_pos_nonneg 2 w). lia.
  - change 65536 with (2 ^ 16). apply Z.pow_le_mono_r; lia.
Qed.

(** The sign bit of a [w]-bit pattern says whether it is in the upper half. *)
Lemma sign_bit_half x w :
  1 <= w -> 0 <= x < 2 ^ w ->
  Z.testbit x (w - 1) = (2 ^ (w - 1) <=? x).
Proof.
  intros Hw Hx.
  pose proof (pow2_split w Hw) as Hs.
  assert (Hp : 0 < 2 ^ (w - 1)) by (apply Z.pow_pos_nonneg; lia).
  pose proof (Z.testbit_spec' x (w - 1) ltac:(lia)) as Hb.
  destruct (Z.leb_spec (2 ^ (w - 1)) x) as [Hge | Hlt].
  - assert (Hq : x / 2 ^ (w - 1) = 1).
    { symmetry. apply (Z.div_unique x (2 ^ (w - 1)) 1 (x - 2 ^ (w - 1))); lia. }
    rewrite Hq in Hb. destruct (Z.testbit x (w - 1)); [reflexivity | discriminate].
  - rewrite Z.div_small in Hb by lia.
    destruct (Z.testbit x (w - 1)); [discriminate | reflexivity].
Qed.

Lemma land_mask v w : 0 <= w -> Z.land v (mask w) = v mod 2 ^ w.
Proof.
  intros Hw. unfold mask. rewrite Z.shiftl_1_l.
  rewrite <- Z.land_ones by lia. rewrite Z.ones_equiv, Z.sub_1_r. reflexivity.
Qed.

(** The or with [0xFFFF << w] adds the high ones: no bit is shared with a
    [w]-bit pattern. *)
Lemma lor_high_ones x w :
  0 <= w -> 0 <= x < 2 ^ w ->
  Z.lor x (Z.shiftl 0xFFFF w) = x + 65535 * 2 ^ w.
Proof.
  intros Hw Hx.
  assert (Hd : Z.land x (Z.shiftl 0xFFFF w) = 0).
  { apply Z.bits_inj'. intros i Hi.
    rewrite Z.land_spec, Z.bits_0, Z.shiftl_spec by lia.
    destruct (Z.ltb_spec i w).
    - rewrite (Z.testbit_neg_r _ (i - w)) by lia. apply andb_false_r.
    - assert (Hxi : Z.testbit x i = false).
      { destruct (Z.eq_dec x 0) as [-> | Hnz]; [apply Z.bits_0 |].
        apply Z.bits_above_log2; [lia |].
        apply Z.log2_lt_pow2; [lia |].
        apply Z.lt_le_trans with (2 ^ w); [lia |].
        apply Z.pow_le_mono_r; lia. }
      rewrite Hxi. reflexivity. }
  rewrite <- Z.lxor_lor by exact Hd.
  rewrite <- Z.add_nocarry_lxor by exact Hd.
  rewrite Z.shiftl_mul_pow2 by lia. reflexivity.
Qed.

(** The value [sign_extend] returns for a [w]-bit pattern. *)
Lemma sign_extend_value x w :
  1 <= w <= 16 -> 0 <= x < 2 ^ w ->
  sign_extend x w = if x <? 2 ^ (w - 1) then x else x + 65536 - 2 ^ w.
Proof.
  intros Hw Hx.
  pose proof (sign_bit_half x w ltac:(lia) Hx) as Hb.
  pose proof (pow2_le_16 w ltac:(lia)) as Hp.
  destruct (Z.ltb_spec x (2 ^ (w - 1))) as [Hlt | Hge].
  - apply sign_extend_clear; [lia |].
    rewrite Hb. apply Z.leb_gt. exact Hlt.
  - rewrite sign_extend_set; [| lia | rewrite Hb; apply Z.leb_le; exact Hge].
    rewrite lor_high_ones by lia. unfold w16.
    replace (x + 65535 * 2 ^ w)
      with ((x + 65536 - 2 ^ w) + (2 ^ w - 1) * 65536) by ring.
    rewrite Z.mod_add by lia. apply Z.mod_small. lia.
Qed.

Lemma sign_extend_word x w :
  1 <= w <= 16 -> is_word x -> is_word (sign_extend x w).
Proof.
  intros Hw Hx. unfold sign_extend.
  destruct (negb _); [apply w16_range | exact Hx].
Qed.

(** [sign_extend] on the masked field gives, read as a signed 16-bit
    number, the field read as a signed [w]-bit number. *)
Lemma sign_extend_signed v w :
  1 <= w <= 16 ->
  signed 16 (sign_extend (Z.land v (mask w)) w) = signed w (v mod 2 ^ w).
Proof.
  intros Hw. rewrite land_mask by lia.
  assert (Hp : 0 < 2 ^ w) by (apply Z.pow_pos_nonneg; lia).
  pose proof (Z.mod_pos_bound v (2 ^ w) Hp) as Hx.
  set (x := v mod 2 ^ w) in *.
  rewrite sign_extend_value by lia.
  pose proof (pow2_split w ltac:(lia)) as Hs.
  pose proof (pow2_le_16 w ltac:(lia)) as Hb.
  pose proof (pow2_le_16 (w - 1) ltac:(lia)) as Hb'.
  unfold signed. change (2 ^ (16 - 1)) with 32768. change (2 ^ 16) with 65536.
  destruct (Z.ltb_spec x (2 ^ (w - 1))) as [Hlt | Hge].
  - destruct (Z.ltb_spec x 32768); lia.
  - destruct (Z.ltb_spec (x + 65536 - 2 ^ w) 32768); lia.
Qed.

(** C1: for every 16-bit [v] and every width [w] among 5, 6, 9 and 11,
    [sign_extend (v & mask w) w] read as a signed 16-bit number is the low
    [w] bits of [v] read as a signed [w]-bit number; the result is a 16-bit
    value whose bits [w-1 .. 15] all equal bit [w-1] of [v] and whose low
    [w] bits are those of [v]. *)
Theorem sign_extend_exact (v w : Z) :
  is_word v -> In w [5; 6; 9; 11] ->
  let r := sign_extend (Z.land v (mask w)) w in
  is_word r /\
  signed 16 r = signed w (v mod 2 ^ w) /\
  (forall i, w - 1 <= i < 16 -> Z.testbit r i = Z.testbit v (w - 1)) /\
  (forall i, 0 <= i < w -> Z.testbit r i = Z.testbit v i).
Proof.
  intros Hv Hin r.
  assert (Hw : 1 <= w <= 15) by (simpl in Hin; lia).
  assert (Hp : 0 < 2 ^ w) by (apply Z.pow_pos_nonneg; lia).
  pose proof (pow2_le_16 w ltac:(lia)) as Hb.
  assert (Hx : is_word (Z.land v (mask w))).
  { rewrite land_mask by lia. pose proof (Z.mod_pos_bound v (2 ^ w) Hp).
    unfold is_word. lia. }
  assert (Hlow : forall i, 0 <= i < w ->
            Z.testbit (Z.land v (mask w)) i = Z.testbit v i).
  { intros i Hi. rewrite land_mask by lia. apply Z.mod_pow2_bits_low. lia. }
  assert (Hhigh : forall i, w <= i ->
            Z.testbit (Z.land v (mask w)) i = false).
  { intros i Hi. rewrite land_mask by lia. apply Z.mod_pow2_bits_high. lia. }
  repeat split.
  - apply sign_extend_word; [lia | exact Hx].
  - apply sign_extend_word; [lia | exact Hx].
  - apply sign_extend_signed. lia.
  - intros i Hi. unfold r.
    rewrite sign_extend_testbit by (lia || exact Hx).
    destruct (Z.ltb_spec i w).
    + replace i with (w - 1) by lia. apply Hlow. lia.
    + rewrite Hhigh by lia. rewrite Hlow by lia. reflexivity.
  - intros i Hi. unfold r.
    rewrite sign_extend_testbit by (lia || exact Hx).
    destruct (Z.ltb_spec i w); [apply Hlow; lia | lia].
Qed.

(** Witness of C1: the field 0x1B of the word 0xFFFB at width 5 is -5. *)
Lemma sign_extend_exact_witness :
  is_word 0xFFFB /\ In 5 [5; 6; 9; 11] /\
  signed 16 (sign_extend (Z.land 0xFFFB (mask 5)) 5) = signed 5 (0xFFFB mod 2 ^ 5) /\
  signed 5 (0xFFFB mod 2 ^ 5) = -5.
Proof.
  assert (Hv : is_word 0xFFFB) by (unfold is_word; lia).
  assert (Hin : In 5 [5; 6; 9; 11]) by (left; reflexivity).
  split; [exact Hv | split; [exact Hin | split; [| reflexivity]]].
  exact (proj1 (proj2 (sign_extend_exact 0xFFFB 5 Hv Hin))).
Defined.

(** C9: [sign_extend] does not mask its input.  When bit [w-1] of a 16-bit
    [x] is clear the result is [x] itself, whatever bits [x] has above
    position [w-1]; so in that case the result is the sign extension of
    the low [w] bits of [x] exactly when [x] has no bit above them. *)
Theorem sign_extend_no_mask (x w : Z) :
  is_word x -> 1 <= w <= 32 -> Z.testbit x (w - 1) = false ->
  sign_extend x w = x /\
  (w <= 16 ->
   (signed 16 (sign_extend x w) = signed w (x mod 2 ^ w) <-> x < 2 ^ w)).
Proof.
  intros Hx Hw Hb.
  assert (Hse : sign_extend x w = x) by (apply sign_extend_clear; [lia | exact Hb]).
  split; [exact Hse |]. intros Hw16. rewrite Hse.
  assert (Hp : 0 < 2 ^ w) by (apply Z.pow_pos_nonneg; lia).
  pose proof (Z.mod_pos_bound x (2 ^ w) Hp) as Hm.
  pose proof (pow2_split w ltac:(lia)) as Hs.
  pose proof (pow2_le_16 w ltac:(lia)) as Hle.
  pose proof (pow2_le_16 (w - 1) ltac:(lia)) as Hle'.
  assert (Hlow : x mod 2 ^ w < 2 ^ (w - 1)).
  { pose proof (sign_bit_half (x mod 2 ^ w) w ltac:(lia) Hm) as Hh.
    rewrite Z.mod_pow2_bits_low in Hh by lia. rewrite Hb in Hh.
    symmetry in Hh. apply Z.leb_gt in Hh. exact Hh. }
  unfold signed, is_word in *.
  change (2 ^ (16 - 1)) with 32768. change (2 ^ 16) with 65536.
  destruct (Z.ltb_spec (x mod 2 ^ w) (2 ^ (w - 1))); [| lia].
  split.
  - intros Heq. destruct (Z.ltb_spec x 32768); lia.
  - intros Hlt. rewrite (Z.mod_small x) in * by lia.
    destruct (Z.ltb_spec x 32768); lia.
Qed.

(** Witness of C9: 0x25 at width 5 has bit 4 clear and bit 5 set; it comes
    back unchanged, and is not the sign extension of its low five bits. *)
Lemma sign_extend_no_mask_witness :
  is_word 0x25 /\ 1 <= 5 <= 32 /\ Z.testbit 0x25 (5 - 1) = false /\
  sign_extend 0x25 5 = 0x25 /\
  signed 16 (sign_extend 0x25 5) <> signed 5 (0x25 mod 2 ^ 5).
Proof.
  assert (Hx : is_word 0x25) by (unfold is_word; lia).
  assert (Hw : 1 <= 5 <= 32) by lia.
  assert (Hb : Z.testbit 0x25 (5 - 1) = false) by reflexivity.
  destruct (sign_extend_no_mask 0x25 5 Hx Hw Hb) as [Heq Hiff].
  split; [exact Hx | split; [exact Hw | split; [exact Hb | split; [exact Heq |]]]].
  intros Hs. apply (Hiff ltac:(lia)) in Hs. vm_compute in Hs. discriminate Hs.
Defined.

Lemma word_high_bits z i : is_word z -> 16 <= i -> Z.testbit z i = false.
Proof.
  unfold is_word. intros Hz Hi.
  destruct (Z.eq_dec z 0) as [-> | Hnz]; [apply Z.bits_0 |].
  apply Z.bits_above_log2; [lia |].
  apply Z.log2_lt_pow2; [lia |].
  apply Z.lt_le_trans with (2 ^ 16); [change (2 ^ 16) with 65536; lia |].
  apply Z.pow_le_mono_r; lia.
Qed.

(** The other case: when bit [w-1] is set the or overwrites every bit
    above it, so what [x] had there does not reach the result. *)
Lemma sign_extend_set_overwrites x w :
  1 <= w <= 15 -> is_word x -> Z.testbit x (w - 1) = true ->
  sign_extend x w = sign_extend (Z.land x (mask w)) w.
Proof.
  intros Hw Hx Hb.
  assert (Hp : 0 < 2 ^ w) by (apply Z.pow_pos_nonneg; lia).
  pose proof (pow2_le_16 w ltac:(lia)) as Hle.
  assert (Hx' : is_word (Z.land x (mask w))).
  { rewrite land_mask by lia. pose proof (Z.mod_pos_bound x (2 ^ w) Hp).
    unfold is_word. lia. }
  assert (Hlow : forall i, 0 <= i < w ->
            Z.testbit (Z.land x (mask w)) i = Z.testbit x i).
  { intros i Hi. rewrite land_mask by lia. apply Z.mod_pow2_bits_low. lia. }
  apply Z.bits_inj'. intros i Hi.
  destruct (Z.ltb_spec i 16) as [Hlt | Hge].
  - rewrite !sign_extend_testbit by (lia || assumption).
    destruct (Z.ltb_spec i w).
    + symmetry. apply Hlow. lia.
    + rewrite (Hlow (w - 1)) by lia. rewrite Hb, !orb_true_r. reflexivity.
  - rewrite !word_high_bits; try reflexivity; try lia;
      apply sign_extend_word; (lia || assumption).
Qed.

(** ** Registers and flags *)

Lemma land_low_range a n : 0 <= n -> 0 <= Z.land a (Z.ones n) < 2 ^ n.
Proof.
  intros Hn. rewrite Z.land_ones by lia. apply Z.mod_pos_bound.
  apply Z.pow_pos_nonneg; lia.
Qed.

Lemma field_dr_range instr : 0 <= field_dr instr < 8.
Proof. apply (land_low_range _ 3). lia. Qed.

Lemma field_sr1_range instr : 0 <= field_sr1 instr < 8.
Proof. apply (land_low_range _ 3). lia. Qed.

Lemma field_sr2_range instr : 0 <= field_sr2 instr < 8.
Proof. apply (land_low_range _ 3). lia. Qed.

Lemma reg_get_set_eq r v m :
  wf m -> 0 <= r < R_COUNT -> reg_get (reg_set r v m) r = w16 v.
Proof.
  unfold wf, reg_get, reg_set, R_COUNT. intros Hwf Hr. simpl.
  rewrite list_lookup_insert_eq by lia. reflexivity.
Qed.

Lemma reg_get_set_ne r r' v m :
  0 <= r -> 0 <= r' -> r <> r' -> reg_get (reg_set r v m) r' = reg_get m r'.
Proof.
  unfold reg_get, reg_set. intros Hr Hr' Hne. simpl.
  rewrite list_lookup_insert_ne by lia. reflexivity.
Qed.

Lemma reg_set_wf r v m : wf m -> wf (reg_set r v m).
Proof. unfold wf, reg_set. simpl. rewrite length_insert. trivial. Qed.

Lemma flag_of_cases v :
  is_word v ->
  (v = 0 /\ flag_of v = FL_ZRO) \/
  (32768 <= v /\ flag_of v = FL_NEG) \/
  (0 < v < 32768 /\ flag_of v = FL_POS).
Proof.
  unfold is_word, flag_of, signed. intros Hv.
  change (2 ^ (16 - 1)) with 32768. change (2 ^ 16) with 65536.
  destruct (Z.ltb_spec v 32768) as [Hlt | Hge].
  - destruct (Z.eqb_spec v 0) as [-> | Hnz]; [left; split; reflexivity |].
    destruct (Z.ltb_spec v 0); [lia |]. right; right. split; [lia | reflexivity].
  - destruct (Z.eqb_spec (v - 65536) 0); [lia |].
    destruct (Z.ltb_spec (v - 65536) 0); [| lia].
    right; left. split; [lia | reflexivity].
Qed.

(** Each of the three values has one flag set, itself. *)
Lemma flags_held_flag_of v : is_word v -> flags_held (flag_of v) = [flag_of v].
Proof.
  intros Hv.
  destruct (flag_of_cases v Hv) as [[_ ->] | [[_ ->] | [_ ->]]]; reflexivity.
Qed.

Lemma shiftr15_word v : is_word v -> (Z.shiftr v 15 =? 0) = (v <? 32768).
Proof.
  unfold is_word. intros Hv. rewrite Z.shiftr_div_pow2 by lia.
  change (2 ^ 15) with 32768.
  destruct (Z.ltb_spec v 32768) as [Hlt | Hge].
  - rewrite Z.div_small by lia. reflexivity.
  - apply Z.eqb_neq. intros H0.
    apply Z.div_small_iff in H0; lia.
Qed.

(** [update_flags] stores the flag of the register's value. *)
Lemma update_flags_flag r m :
  is_word (reg_get m r) ->
  update_flags r m = reg_set R_COND (flag_of (reg_get m r)) m.
Proof.
  intros Hv. unfold update_flags. rewrite shiftr15_word by exact Hv.
  destruct (flag_of_cases _ Hv) as [[H0 ->] | [[Hn ->] | [Hp ->]]].
  - rewrite H0. reflexivity.
  - destruct (Z.eqb_spec (reg_get m r) 0); [lia |].
    destruct (Z.ltb_spec (reg_get m r) 32768); [lia | reflexivity].
  - destruct (Z.eqb_spec (reg_get m r) 0); [lia |].
    destruct (Z.ltb_spec (reg_get m r) 32768); [reflexivity | lia].
Qed.

(** The effect of [reg[r] = v; update_flags(r);] for a general register
    [r]: the register and the condition register change, nothing else. *)
Lemma write_and_flag r v m :
  wf m -> 0 <= r < 8 ->
  update_flags r (reg_set r v m)
    = reg_set R_COND (flag_of (w16 v)) (reg_set r v m) /\
  wf (update_flags r (reg_set r v m)) /\
  reg_get (update_flags r (reg_set r v m)) r = w16 v /\
  reg_get (update_flags r (reg_set r v m)) R_COND = flag_of (w16 v) /\
  memory (update_flags r (reg_set r v m)) = memory m /\
  kbd (update_flags r (reg_set r v m)) = kbd m /\
  (forall r', 0 <= r' -> r' <> r -> r' <> R_COND ->
     reg_get (update_flags r (reg_set r v m)) r' = reg_get m r').
Proof.
  intros Hwf Hr.
  assert (Hget : reg_get (reg_set r v m) r = w16 v)
    by (apply reg_get_set_eq; [exact Hwf | unfold R_COUNT; lia]).
  assert (Heq : update_flags r (reg_set r v m)
                = reg_set R_COND (flag_of (w16 v)) (reg_set r v m)).
  { rewrite update_flags_flag; rewrite Hget; [reflexivity | apply w16_range]. }
  rewrite Heq. split; [reflexivity |].
  split; [apply reg_set_wf, reg_set_wf, Hwf |].
  split.
  { rewrite reg_get_set_ne by (unfold R_COND; lia). exact Hget. }
  split.
  { rewrite reg_get_set_eq;
      [ apply w16_small; destruct (flag_of_cases _ (w16_range v))
          as [[_ ->] | [[_ ->] | [_ ->]]]; unfold is_word; vm_compute; intuition discriminate
      | apply reg_set_wf, Hwf | unfold R_COND, R_COUNT; lia ]. }
  split; [reflexivity |]. split; [reflexivity |].
  intros r' Hr' Hne Hnc.
  rewrite reg_get_set_ne by (unfold R_COND in *; lia).
  apply reg_get_set_ne; lia.
Qed.

(** ** The implemented instructions: ADD, AND, LDI *)

Section Instructions.
Context {E : External}.

Lemma exec_add instr m :
  switch_case (Z.shiftr instr 12) = Some OP_ADD ->
  exec instr m =
    Done true (update_flags (field_dr instr)
      (reg_set (field_dr instr)
               (reg_get m (field_sr1 instr) + operand2 instr m) m)).
Proof.
  intros Hop. unfold exec, operand2. rewrite Hop.
  destruct (negb (field_imm_flag instr =? 0)); reflexivity.
Qed.

Lemma exec_and instr m :
  switch_case (Z.shiftr instr 12) = Some OP_AND ->
  exec instr m =
    Done true (update_flags (field_dr instr)
      (reg_set (field_dr instr)
               (Z.land (reg_get m (field_sr1 instr)) (operand2 instr m)) m)).
Proof.
  intros Hop. unfold exec, operand2. rewrite Hop.
  destruct (negb (field_imm_flag instr =? 0)); reflexivity.
Qed.

Lemma exec_ldi instr m :
  switch_case (Z.shiftr instr 12) = Some OP_LDI ->
  exec instr m =
    let A := w16 (reg_get m R_PC + sign_extend (Z.land instr 0x1FF) 9) in
    let p := w16 (mem_read A m).1 in
    let m1 := (mem_read A m).2 in
    Done true (update_flags (field_dr instr)
      (reg_set (field_dr instr) (mem_read p m1).1 (mem_read p m1).2)).
Proof.
  intros Hop. unfold exec. rewrite Hop. cbv zeta.
  destruct (mem_read _ m) as [a m1]. simpl.
  destruct (mem_read (w16 a) m1) as [v m2]. reflexivity.
Qed.

(** Every flag-setting instruction of lc3.c ends in
    [reg[r0] = v; update_flags(r0);] on some state [m0]. *)
Lemma flag_setting_shape instr m o :
  switch_case (Z.shiftr instr 12) = Some o ->
  In o [OP_ADD; OP_AND; OP_LDI] ->
  (forall a s, length (reg (mem_read a s).2) = length (reg s)) ->
  wf m ->
  exists v m0, wf m0 /\
    exec instr m =
      Done true (update_flags (field_dr instr) (reg_set (field_dr instr) v m0)).
Proof.
  intros Hop Hin Hlen Hwf.
  destruct Hin as [<- | [<- | [<- | []]]].
  - eexists _, m. split; [exact Hwf | apply exec_add, Hop].
  - eexists _, m. split; [exact Hwf | apply exec_and, Hop].
  - rewrite (exec_ldi _ _ Hop). cbv zeta.
    eexists _, _. split; [| reflexivity].
    unfold wf in *. rewrite !Hlen. exact Hwf.
Qed.

(** C2: after ADD, AND or LDI (the instructions of lc3.c that call
    [update_flags]) the condition register holds exactly one of NEGATIVE,
    ZERO, POSITIVE, and it is the one for the destination register's new
    16-bit value read as two's complement: ZERO for zero, NEGATIVE when
    bit 15 is set, POSITIVE otherwise.  ([mem_read] is assumed not to
    resize the register array.) *)
Theorem flags_after_instruction instr m o :
  switch_case (Z.shiftr instr 12) = Some o ->
  In o [OP_ADD; OP_AND; OP_LDI] ->
  (forall a s, length (reg (mem_read a s).2) = length (reg s)) ->
  wf m ->
  exists m',
    exec instr m = Done true m' /\
    is_word (reg_get m' (field_dr instr)) /\
    reg_get m' R_COND = flag_of (reg_get m' (field_dr instr)) /\
    flags_held (reg_get m' R_COND) = [reg_get m' R_COND] /\
    (reg_get m' (field_dr instr) = 0 -> reg_get m' R_COND = FL_ZRO) /\
    (Z.testbit (reg_get m' (field_dr instr)) 15 = true ->
       reg_get m' R_COND = FL_NEG) /\
    (reg_get m' (field_dr instr) <> 0 ->
     Z.testbit (reg_get m' (field_dr instr)) 15 = false ->
       reg_get m' R_COND = FL_POS).
Proof.
  intros Hop Hin Hlen Hwf.
  destruct (flag_setting_shape instr m o Hop Hin Hlen Hwf) as (v & m0 & Hwf0 & Hex).
  pose proof (field_dr_range instr) as Hdr.
  destruct (write_and_flag (field_dr instr) v m0 Hwf0 Hdr)
    as (_ & _ & Hval & Hflag & _).
  eexists. split; [exact Hex |].
  rewrite Hval, Hflag.
  pose proof (w16_range v) as Hw.
  pose proof (sign_bit_half (w16 v) 16 ltac:(lia) Hw) as Hbit.
  change (2 ^ (16 - 1)) with 32768 in Hbit. change (16 - 1) with 15 in Hbit.
  split; [exact Hw |]. split; [reflexivity |].
  split; [apply flags_held_flag_of, Hw |].
  destruct (flag_of_cases _ Hw) as [[H0 ->] | [[Hn ->] | [Hp ->]]].
  - repeat split; try reflexivity; intros; try congruence.
    rewrite H0 in *. discriminate.
  - assert (Hb : Z.testbit (w16 v) 15 = true)
      by (rewrite Hbit; apply Z.leb_le; lia).
    repeat split; try reflexivity; intros; try lia; congruence.
  - assert (Hb : Z.testbit (w16 v) 15 = false)
      by (rewrite Hbit; apply Z.leb_gt; lia).
    repeat split; try reflexivity; intros; try lia; congruence.
Qed.

(** C3: ADD (and likewise AND) in immediate mode with immediate field [k]
    leaves the machine in the same state, so with the same destination
    value and the same flags, as the register-mode instruction with the
    same destination and first source whose second source register holds
    [sign_extend k 5]. *)
Theorem immediate_as_register_mode instr_i instr_r m o :
  In o [OP_ADD; OP_AND] ->
  switch_case (Z.shiftr instr_i 12) = Some o ->
  switch_case (Z.shiftr instr_r 12) = Some o ->
  field_dr instr_i = field_dr instr_r ->
  field_sr1 instr_i = field_sr1 instr_r ->
  field_imm_flag instr_i = 1 ->
  field_imm_flag instr_r = 0 ->
  reg_get m (field_sr2 instr_r) = sign_extend (Z.land instr_i 0x1F) 5 ->
  exists m',
    exec instr_i m = Done true m' /\ exec instr_r m = Done true m'.
Proof.
  intros Hin Hi Hr Hdr Hsr Hfi Hfr Hreg.
  assert (Hop2 : operand2 instr_i m = operand2 instr_r m).
  { unfold operand2. rewrite Hfi, Hfr. simpl. symmetry. exact Hreg. }
  destruct Hin as [<- | [<- | []]].
  - rewrite (exec_add _ _ Hi), (exec_add _ _ Hr), Hdr, Hsr, Hop2. eauto.
  - rewrite (exec_and _ _ Hi), (exec_and _ _ Hr), Hdr, Hsr, Hop2. eauto.
Qed.

(** C4: with [A] the post-increment PC plus the sign-extended 9-bit
    offset, LDI reads the cell at [A] and then the cell whose address it
    found there, puts that second value in the destination register and
    sets the flags from it; the final state is that of a direct load from
    the address found at [A]. *)
Theorem ldi_double_indirection instr m :
  switch_case (Z.shiftr instr 12) = Some OP_LDI ->
  (forall a s, length (reg (mem_read a s).2) = length (reg s)) ->
  wf m ->
  exists m',
    exec instr m = Done true m' /\
    m' = direct_load (field_dr instr)
           (w16 (mem_read (w16 (reg_get m R_PC + sign_extend (Z.land instr 0x1FF) 9)) m).1)
           (mem_read (w16 (reg_get m R_PC + sign_extend (Z.land instr 0x1FF) 9)) m).2 /\
    (forall p m1 v m2,
       mem_read (w16 (reg_get m R_PC + sign_extend (Z.land instr 0x1FF) 9)) m = (p, m1) ->
       mem_read (w16 p) m1 = (v, m2) ->
       reg_get m' (field_dr instr) = w16 v /\
       reg_get m' R_COND = flag_of (w16 v) /\
       memory m' = memory m2 /\ kbd m' = kbd m2 /\
       (forall r, 0 <= r -> r <> field_dr instr -> r <> R_COND ->
          reg_get m' r = reg_get m2 r)).
Proof.
  intros Hop Hlen Hwf.
  rewrite (exec_ldi _ _ Hop). cbv zeta.
  eexists. split; [reflexivity |]. split.
  - unfold direct_load.
    destruct (mem_read (w16 (mem_read _ m).1) (mem_read _ m).2) as [v m2].
    reflexivity.
  - intros p m1 v m2 H1 H2. rewrite H1. simpl. rewrite H2. simpl.
    assert (Hwf2 : wf m2).
    { unfold wf in *.
      replace m2 with (mem_read (w16 p) m1).2 by (rewrite H2; reflexivity).
      replace m1 with (mem_read (w16 (reg_get m R_PC
                         + sign_extend (Z.land instr 0x1FF) 9)) m).2
        by (rewrite H1; reflexivity).
      rewrite !Hlen. exact Hwf. }
    destruct (write_and_flag (field_dr instr) v m2 Hwf2 (field_dr_range instr))
      as (_ & _ & Hval & Hflag & Hmem & Hkbd & Hother).
    repeat split; assumption.
Qed.

(** C10: ADD and AND, in either mode, run on the state [m] that the fetch
    left, change the destination register and the condition register and
    nothing else: memory, the input device, the PC and every other
    register keep their values.  The destination gets
    the sum (the bitwise and) of the two operands as they were before the
    instruction, also when it is one of the source registers. *)
Theorem alu_frame instr m o :
  switch_case (Z.shiftr instr 12) = Some o ->
  In o [OP_ADD; OP_AND] ->
  wf m ->
  exists m',
    exec instr m = Done true m' /\
    memory m' = memory m /\ kbd m' = kbd m /\
    length (reg m') = length (reg m) /\
    reg_get m' R_PC = reg_get m R_PC /\
    (forall r, 0 <= r < R_COUNT -> r <> field_dr instr -> r <> R_COND ->
       reg_get m' r = reg_get m r) /\
    reg_get m' (field_dr instr) =
      w16 (let a := reg_get m (field_sr1 instr) in
           let b := if field_imm_flag instr =? 0
                    then reg_get m (field_sr2 instr)
                    else sign_extend (Z.land instr 0x1F) 5 in
           match o with OP_AND => Z.land a b | _ => a + b end).
Proof.
  intros Hop Hin Hwf.
  pose proof (field_dr_range instr) as Hdr.
  assert (Hb : operand2 instr m =
               if field_imm_flag instr =? 0
               then reg_get m (field_sr2 instr)
               else sign_extend (Z.land instr 0x1F) 5).
  { unfold operand2. destruct (field_imm_flag instr =? 0); reflexivity. }
  assert (Hshape : exists v,
            exec instr m = Done true
              (update_flags (field_dr instr) (reg_set (field_dr instr) v m)) /\
            v = (let a := reg_get m (field_sr1 instr) in
                 let b := if field_imm_flag instr =? 0
                          then reg_get m (field_sr2 instr)
                          else sign_extend (Z.land instr 0x1F) 5 in
                 match o with OP_AND => Z.land a b | _ => a + b end)).
  { destruct Hin as [<- | [<- | []]]; eexists; (split; [| reflexivity]).
    - rewrite (exec_add _ _ Hop), Hb. reflexivity.
    - rewrite (exec_and _ _ Hop), Hb. reflexivity. }
  destruct Hshape as (v & Hex & Hv). rewrite <- Hv.
  destruct (write_and_flag (field_dr instr) v m Hwf Hdr)
    as (_ & Hwf' & Hval & _ & Hmem & Hkbd & Hother).
  eexists. split; [exact Hex |].
  repeat split; try assumption.
  - unfold wf in *. congruence.
  - apply Hother; unfold R_PC, R_COND; lia.
  - intros r Hr Hne Hnc. apply Hother; lia.
Qed.

End Instructions.

(** ** The loop and the reserved opcodes *)

Section Loop.
Context {E : External}.

Lemma exec_reserved instr m :
  Z.shiftr instr 12 = opcode_value OP_RTI \/
  Z.shiftr instr 12 = opcode_value OP_RES ->
  exec instr m = Abort m.
Proof. unfold exec. intros [-> | ->]; reflexivity. Qed.

Lemma run_abort fuel m m' :
  cycle m = Abort m' -> run (S fuel) m = (LoopAbort, m', 1%nat).
Proof. intros H. simpl. rewrite H. reflexivity. Qed.

Lemma run_exit fuel m m' :
  cycle m = Done false m' -> run (S fuel) m = (LoopExit, m', 1%nat).
Proof. intros H. simpl. rewrite H. reflexivity. Qed.

Lemma main_ready fuel argv input m :
  startup argv input = Ready m ->
  main fuel argv input =
    match run fuel m with
    | (LoopExit, mf, n) =>
        {| status := Exited 0;
           trace := [EvSignal; EvDisableInputBuffering; EvRestoreInputBuffering];
           cycles := n; final := Some mf |}
    | (LoopAbort, mf, n) =>
        {| status := Aborted; trace := [EvSignal; EvDisableInputBuffering];
           cycles := n; final := Some mf |}
    | (LoopFuel, mf, n) =>
        {| status := Unfinished; trace := [EvSignal; EvDisableInputBuffering];
           cycles := n; final := Some mf |}
    end.
Proof.
  intros H. unfold main. rewrite H.
  destruct (run fuel m) as [[[] mf] n]; reflexivity.
Qed.

(** C5: when the word fetched in a running machine has 8 (RTI) or 13 (RES)
    in its opcode field, the pass through the loop ends in [abort()] with
    the state exactly as the fetch left it ([m1]); the loop makes that one
    fetch and no other, whatever fuel is left, and the process ends
    aborted. *)
Theorem reserved_opcode_aborts m v m1 :
  mem_read (w16 (reg_get m R_PC)) (reg_set R_PC (reg_get m R_PC + 1) m) = (v, m1) ->
  Z.shiftr (w16 v) 12 = opcode_value OP_RTI \/
  Z.shiftr (w16 v) 12 = opcode_value OP_RES ->
  cycle m = Abort m1 /\
  (forall fuel, run (S fuel) m = (LoopAbort, m1, 1%nat)) /\
  (forall fuel argv input,
     startup argv input = Ready m ->
     status (main (S fuel) argv input) = Aborted /\
     cycles (main (S fuel) argv input) = 1%nat /\
     final (main (S fuel) argv input) = Some m1).
Proof.
  intros Hfetch Hop.
  assert (Hc : cycle m = Abort m1).
  { unfold cycle. rewrite Hfetch. apply exec_reserved, Hop. }
  split; [exact Hc |]. split.
  - intros fuel. apply run_abort, Hc.
  - intros fuel argv input Hs.
    rewrite (main_ready _ _ _ _ Hs), (run_abort _ _ _ Hc). simpl. auto.
Qed.

(** ** Startup and exit codes *)

Lemma load_images_app pre post m :
  load_images (pre ++ post) m =
    match load_images pre m with
    | inl p => inl p
    | inr m' => load_images post m'
    end.
Proof.
  revert m. induction pre as [| p pre IH]; intros m; simpl; [reflexivity |].
  destruct (read_image p m); [apply IH | reflexivity].
Qed.

(** The loop over the arguments stops at a path exactly when that path is
    the first whose load fails. *)
Lemma load_images_fails paths m p :
  load_images paths m = inl p <->
  exists pre post m',
    paths = pre ++ p :: post /\ load_images pre m = inr m' /\
    read_image p m' = None.
Proof.
  split.
  - revert m. induction paths as [| q paths IH]; intros m H; simpl in H.
    + discriminate.
    + destruct (read_image q m) as [m' |] eqn:Hq.
      * destruct (IH _ H) as (pre & post & m'' & -> & Hpre & Hp).
        exists (q :: pre), post, m''. simpl. rewrite Hq. auto.
      * inversion H; subst. exists [], paths, m. auto.
  - intros (pre & post & m' & -> & Hpre & Hp).
    rewrite load_images_app, Hpre. simpl. rewrite Hp. reflexivity.
Qed.

(** C8: with no image argument the process exits with code 2, and when
    the load of some image fails it exits with code 1, in both cases
    without a pass through the loop (no fetch, the terminal untouched, for
    any fuel); code 0 is the exit of a process whose loop was entered and
    left with [running] cleared, so it is neither of the two. *)
Theorem exit_codes fuel argv input :
  ((length argv < 2)%nat ->
     status (main fuel argv input) = Exited 2 /\
     cycles (main fuel argv input) = O /\
     trace (main fuel argv input)
       = [EvPrint ("lc3 [image-file1] ..." ++ newline)]) /\
  (forall pre p post m',
     tail argv = pre ++ p :: post ->
     load_images pre (power_on input) = inr m' ->
     read_image p m' = None ->
     status (main fuel argv input) = Exited 1 /\
     cycles (main fuel argv input) = O /\
     trace (main fuel argv input)
       = [EvPrint ("failed to load image: " ++ p ++ newline)]) /\
  (status (main fuel argv input) = Exited 0 <->
     exists m, startup argv input = Ready m /\ (run fuel m).1.1 = LoopExit) /\
  Exited 2 <> Exited 0 /\ Exited 1 <> Exited 0 /\ Exited 2 <> Exited 1.
Proof.
  split; [| split; [| split]].
  - intros Hlen. unfold main, startup.
    destruct (Z.ltb_spec (Z.of_nat (length argv)) 2); [auto | lia].
  - intros pre p post m' Htl Hpre Hp.
    assert (Hload : load_images (tail argv) (power_on input) = inl p).
    { apply load_images_fails. exists pre, post, m'. auto. }
    assert (Hlen : (2 <= length argv)%nat).
    { destruct argv as [| a0 [| a1 rest]]; simpl in *; try lia;
        destruct pre; discriminate. }
    unfold main, startup.
    destruct (Z.ltb_spec (Z.of_nat (length argv)) 2); [lia |].
    rewrite Hload. auto.
  - split.
    + intros Hst. unfold main in Hst.
      destruct (startup argv input) as [| p | m] eqn:Hs;
        [discriminate | discriminate |].
      exists m. split; [reflexivity |].
      destruct (run fuel m) as [[[] mf] n]; [reflexivity | discriminate | discriminate].
    + intros (m & Hs & Hrun). rewrite (main_ready _ _ _ _ Hs).
      destruct (run fuel m) as [[e mf] n]. simpl in Hrun. subst e. reflexivity.
  - repeat split; discriminate.
Qed.

End Loop.

(** ** The state the loop starts from *)

Lemma store_words_outside a ws mem a' :
  a' < a \/ a + Z.of_nat (length ws) <= a' ->
  store_words a ws mem !! a' = mem !! a'.
Proof.
  revert a mem. induction ws as [| w ws IH]; intros a mem Hout; simpl.
  - reflexivity.
  - simpl in Hout. rewrite IH by lia.
    apply lookup_insert_ne. lia.
Qed.

Lemma read_image_spec_frame fs p m m' :
  read_image_spec fs p m = Some m' ->
  reg m' = reg m /\ kbd m' = kbd m /\
  exists origin ws,
    fs p = Some (origin :: ws) /\
    forall a, ~ image_writes origin ws a -> memory m' !! a = memory m !! a.
Proof.
  unfold read_image_spec. intros H.
  destruct (fs p) as [[| origin ws] |]; try discriminate.
  inversion H; subst; clear H. simpl.
  split; [reflexivity |]. split; [reflexivity |].
  exists origin, ws. split; [reflexivity |].
  intros a Hnw. apply store_words_outside.
  unfold image_writes in Hnw. lia.
Qed.

(** The loader of the specification writes memory only, and only at the
    addresses of the images. *)
Lemma load_images_spec_frame fs paths m m' :
  load_images (E := spec_external fs) paths m = inr m' ->
  reg m' = reg m /\ kbd m' = kbd m /\
  forall a, ~ loader_writes fs paths a -> memory m' !! a = memory m !! a.
Proof.
  revert m. induction paths as [| p paths IH]; intros m H; simpl in H.
  - inversion H; subst. auto.
  - destruct (read_image_spec fs p m) as [m1 |] eqn:Hp; [| discriminate].
    destruct (read_image_spec_frame _ _ _ _ Hp) as (Hr & Hk & origin & ws & Hfs & Hm).
    destruct (IH _ H) as (Hr' & Hk' & Hm').
    split; [congruence |]. split; [congruence |].
    intros a Hnw. rewrite Hm', Hm; [reflexivity | |].
    + intros Hw. apply Hnw. exists p, origin, ws. simpl. auto.
    + intros (q & o & w & Hin & Hq & Hw). apply Hnw.
      exists q, o, w. simpl. auto.
Qed.

(** C6: when the loop is about to make its first fetch, PC = 0x3000, the
    condition register holds ZERO, R0 to R7 are 0, and every memory cell
    outside the ranges the loader wrote for the image arguments is 0. *)
Theorem initial_state fs argv input m :
  startup (E := spec_external fs) argv input = Ready m ->
  reg_get m R_PC = 0x3000 /\
  reg_get m R_COND = FL_ZRO /\
  (forall r, R_R0 <= r <= R_R7 -> reg_get m r = 0) /\
  (forall a, ~ loader_writes fs (tail argv) a -> mem_get m a = 0).
Proof.
  unfold startup. intros H.
  destruct (Z.of_nat (length argv) <? 2); [discriminate |].
  destruct (load_images (tail argv) (power_on input)) as [p | m0] eqn:Hl;
    [discriminate |].
  inversion H; subst; clear H.
  destruct (load_images_spec_frame _ _ _ _ Hl) as (Hr & Hk & Hm).
  unfold reg_get, mem_get, reg_set. simpl. rewrite Hr. simpl.
  split; [reflexivity |]. split; [reflexivity |]. split.
  - unfold R_R0, R_R7. intros r Hrange.
    assert (Hc : r = 0 \/ r = 1 \/ r = 2 \/ r = 3 \/ r = 4 \/ r = 5 \/ r = 6 \/ r = 7)
      by lia.
    destruct Hc as [-> | [-> | [-> | [-> | [-> | [-> | [-> | ->]]]]]]]; reflexivity.
  - intros a Hnw. rewrite (Hm a Hnw). reflexivity.
Qed.

(** ** Leaving the loop and the terminal *)

(** Between [disable_input_buffering] and the end of the process, only the
    exit through the end of [main] calls [restore_input_buffering]. *)
Lemma restore_only_on_loop_exit {E : External} fuel argv input :
  In EvRestoreInputBuffering (trace (main fuel argv input)) <->
  status (main fuel argv input) = Exited 0.
Proof.
  unfold main.
  destruct (startup argv input) as [| p | m]; simpl.
  - split; [intros [H | []]; discriminate | discriminate].
  - split; [intros [H | []]; discriminate | discriminate].
  - destruct (run fuel m) as [[[] mf] n]; simpl.
    + split; auto.
    + split; [intros [H | [H | []]]; discriminate | discriminate].
    + split; [intros [H | [H | []]]; discriminate | discriminate].
Qed.

(** C7 (the code departs from it): the image rti.obj holds the reserved
    word 0x8000 at 0x3000.  The process enters raw mode, fetches the word
    and ends in [abort()]; [restore_input_buffering] is never called.  On
    the path through HALT (image add5.obj) it is called before the exit. *)
Theorem abort_skips_restore fuel input :
  status (main (E := spec_external demo_fs) (S fuel) ["lc3"; "rti.obj"]%string input)
    = Aborted /\
  trace (main (E := spec_external demo_fs) (S fuel) ["lc3"; "rti.obj"]%string input)
    = [EvSignal; EvDisableInputBuffering] /\
  ~ In EvRestoreInputBuffering
      (trace (main (E := spec_external demo_fs) (S fuel) ["lc3"; "rti.obj"]%string input)) /\
  status (main (E := spec_external demo_fs) (S (S fuel)) ["lc3"; "add5.obj"]%string input)
    = Exited 0 /\
  trace (main (E := spec_external demo_fs) (S (S fuel)) ["lc3"; "add5.obj"]%string input)
    = [EvSignal; EvDisableInputBuffering; EvRestoreInputBuffering].
Proof.
  assert (Hrti : main (E := spec_external demo_fs) (S fuel) ["lc3"; "rti.obj"]%string input
                 = {| status := Aborted;
                      trace := [EvSignal; EvDisableInputBuffering];
                      cycles := 1%nat;
                      final := (final (main (E := spec_external demo_fs) 1
                                         ["lc3"; "rti.obj"]%string input)) |}).
  { reflexivity. }
  assert (Hadd : main (E := spec_external demo_fs) (S (S fuel)) ["lc3"; "add5.obj"]%string input
                 = {| status := Exited 0;
                      trace := [EvSignal; EvDisableInputBuffering; EvRestoreInputBuffering];
                      cycles := 2%nat;
                      final := (final (main (E := spec_external demo_fs) 2
                                         ["lc3"; "add5.obj"]%string input)) |}).
  { reflexivity. }
  rewrite Hrti, Hadd. simpl.
  repeat split. intros [H | [H | []]]; discriminate.
Qed.

(** ** The theorems at concrete machines *)

Lemma mem_read_spec_length a s :
  length (reg (mem_read_spec a s).2) = length (reg s).
Proof.
  unfold mem_read_spec. simpl.
  destruct (a =? MR_KBSR); [destruct (kbd s) |]; reflexivity.
Qed.

(** Witness of C2: ADD R0, R0, #-5 on the cleared machine. *)
Lemma flags_after_instruction_witness :
  switch_case (Z.shiftr 0x103B 12) = Some OP_ADD /\
  In OP_ADD [OP_ADD; OP_AND; OP_LDI] /\
  wf (power_on []) /\
  exists m',
    exec (E := spec_external demo_fs) 0x103B (power_on []) = Done true m' /\
    reg_get m' R_COND = flag_of (reg_get m' (field_dr 0x103B)) /\
    flags_held (reg_get m' R_COND) = [reg_get m' R_COND].
Proof.
  assert (Hop : switch_case (Z.shiftr 0x103B 12) = Some OP_ADD) by reflexivity.
  assert (Hin : In OP_ADD [OP_ADD; OP_AND; OP_LDI]) by (left; reflexivity).
  assert (Hwf : wf (power_on [])) by reflexivity.
  split; [exact Hop | split; [exact Hin | split; [exact Hwf |]]].
  destruct (flags_after_instruction (E := spec_external demo_fs)
              0x103B (power_on []) OP_ADD Hop Hin mem_read_spec_length Hwf)
    as (m' & Hex & _ & Hc & Hheld & _).
  exists m'. auto.
Defined.

(** Witness of C3: ADD R1, R1, #-5 against ADD R1, R1, R2 with
    R2 = 0xFFFB. *)
Lemma immediate_as_register_mode_witness :
  In OP_ADD [OP_ADD; OP_AND] /\
  field_imm_flag 0x127B = 1 /\ field_imm_flag 0x1242 = 0 /\
  reg_get (reg_set 2 0xFFFB (power_on [])) (field_sr2 0x1242)
    = sign_extend (Z.land 0x127B 0x1F) 5 /\
  exists m',
    exec (E := spec_external demo_fs) 0x127B (reg_set 2 0xFFFB (power_on []))
      = Done true m' /\
    exec (E := spec_external demo_fs) 0x1242 (reg_set 2 0xFFFB (power_on []))
      = Done true m'.
Proof.
  assert (Hin : In OP_ADD [OP_ADD; OP_AND]) by (left; reflexivity).
  split; [exact Hin |]. split; [reflexivity |]. split; [reflexivity |].
  split; [reflexivity |].
  apply (immediate_as_register_mode (E := spec_external demo_fs)
           0x127B 0x1242 (reg_set 2 0xFFFB (power_on [])) OP_ADD Hin);
    reflexivity.
Defined.

(** Witness of C4: LDI R0, #1 on [ldi_machine] loads 0x8123. *)
Lemma ldi_double_indirection_witness :
  switch_case (Z.shiftr 0xA001 12) = Some OP_LDI /\
  wf ldi_machine /\
  exists m',
    exec (E := spec_external demo_fs) 0xA001 ldi_machine = Done true m' /\
    reg_get m' (field_dr 0xA001) = 0x8123 /\
    reg_get m' R_COND = FL_NEG.
Proof.
  assert (Hop : switch_case (Z.shiftr 0xA001 12) = Some OP_LDI) by reflexivity.
  assert (Hwf : wf ldi_machine) by reflexivity.
  split; [exact Hop | split; [exact Hwf |]].
  destruct (ldi_double_indirection (E := spec_external demo_fs)
              0xA001 ldi_machine Hop mem_read_spec_length Hwf)
    as (m' & Hex & _ & Hall).
  destruct (Hall 0x4000 ldi_machine 0x8123 ldi_machine eq_refl eq_refl)
    as (Hv & Hc & _).
  exists m'. split; [exact Hex |]. split; [exact Hv | exact Hc].
Defined.

(** Witness of C5: the first fetch of rti.obj. *)
Lemma reserved_opcode_aborts_witness :
  Z.shiftr (w16 0x8000) 12 = opcode_value OP_RTI /\
  cycle (E := spec_external demo_fs) rti_machine
    = Abort (reg_set R_PC 0x3001 rti_machine) /\
  run (E := spec_external demo_fs) 5 rti_machine
    = (LoopAbort, reg_set R_PC 0x3001 rti_machine, 1%nat).
Proof.
  split; [reflexivity |].
  destruct (reserved_opcode_aborts (E := spec_external demo_fs)
              rti_machine 0x8000 (reg_set R_PC 0x3001 rti_machine)
              eq_refl (or_introl eq_refl)) as (Hc & Hrun & _).
  split; [exact Hc | exact (Hrun 4%nat)].
Defined.

(** Witness of C6: the start state for add5.obj; the cell below the image
    is zero. *)
Lemma initial_state_witness :
  exists m,
    startup (E := spec_external demo_fs) ["lc3"; "add5.obj"]%string [] = Ready m /\
    reg_get m R_PC = 0x3000 /\ reg_get m R_COND = FL_ZRO /\
    reg_get m R_R7 = 0 /\ mem_get m 0x2FFF = 0.
Proof.
  eexists. split; [reflexivity |].
  destruct (initial_state demo_fs ["lc3"; "add5.obj"]%string [] _ eq_refl)
    as (Hpc & Hc & Hr & Hm).
  split; [exact Hpc |]. split; [exact Hc |].
  split; [apply Hr; unfold R_R0, R_R7; lia |].
  apply Hm. intros (p & o & ws & Hin & Hfs & Hw).
  destruct Hin as [<- | []].
  inversion Hfs; subst; clear Hfs.
  unfold image_writes in Hw. vm_compute in Hw.
  destruct Hw as [Hlo _]. apply Hlo. reflexivity.
Defined.

(** Witness of C8: no argument at all, and a second image that does not
    exist. *)
Lemma exit_codes_witness :
  (length ["lc3"%string] < 2)%nat /\
  status (main (E := spec_external demo_fs) 7 ["lc3"%string] []) = Exited 2 /\
  read_image (External := spec_external demo_fs) "nofile"
    (mem_set 0x3001 0xF025 (mem_set 0x3000 0x1025 (power_on []))) = None /\
  status (main (E := spec_external demo_fs) 7
            ["lc3"; "add5.obj"; "nofile"]%string []) = Exited 1 /\
  cycles (main (E := spec_external demo_fs) 7
            ["lc3"; "add5.obj"; "nofile"]%string []) = O.
Proof.
  assert (Hlen : (length ["lc3"%string] < 2)%nat) by (simpl; lia).
  split; [exact Hlen |].
  split.
  { exact (proj1 (proj1 (exit_codes (E := spec_external demo_fs)
                           7 ["lc3"%string] []) Hlen)). }
  split; [reflexivity |].
  destruct (proj1 (proj2 (exit_codes (E := spec_external demo_fs)
                            7 ["lc3"; "add5.obj"; "nofile"]%string []))
              ["add5.obj"%string] "nofile"%string []
              (mem_set 0x3001 0xF025 (mem_set 0x3000 0x1025 (power_on [])))
              eq_refl eq_refl eq_refl) as (Hst & Hcy & _).
  split; [exact Hst | exact Hcy].
Defined.

(** Witness of C10: ADD R1, R1, R2 with R1 = 7 and R2 = 0xFFFB; the
    destination is also the first source. *)
Lemma alu_frame_witness :
  switch_case (Z.shiftr 0x1242 12) = Some OP_ADD /\
  In OP_ADD [OP_ADD; OP_AND] /\
  wf (reg_set 1 7 (reg_set 2 0xFFFB (power_on []))) /\
  exists m',
    exec (E := spec_external demo_fs) 0x1242
      (reg_set 1 7 (reg_set 2 0xFFFB (power_on []))) = Done true m' /\
    memory m' = memory (power_on []) /\
    reg_get m' 2 = 0xFFFB /\
    reg_get m' 1 = 2.
Proof.
  assert (Hop : switch_case (Z.shiftr 0x1242 12) = Some OP_ADD) by reflexivity.
  assert (Hin : In OP_ADD [OP_ADD; OP_AND]) by (left; reflexivity).
  assert (Hwf : wf (reg_set 1 7 (reg_set 2 0xFFFB (power_on [])))) by reflexivity.
  split; [exact Hop | split; [exact Hin | split; [exact Hwf |]]].
  destruct (alu_frame (E := spec_external demo_fs) 0x1242
              (reg_set 1 7 (reg_set 2 0xFFFB (power_on []))) OP_ADD Hop Hin Hwf)
    as (m' & Hex & Hmem & _ & _ & _ & Hother & Hdst).
  exists m'. split; [exact Hex |]. split; [exact Hmem |].
  split; [| exact Hdst].
  apply (Hother 2); [unfold R_COUNT; lia | discriminate | discriminate].
Defined.

(** With the [mem_read] of the specification and away from the keyboard
    status cell, the value LDI loads is [memory[memory[A]]] and memory is
    untouched. *)
Lemma mem_read_spec_plain a m :
  a <> MR_KBSR -> mem_read_spec a m = (mem_get m a, m).
Proof.
  intros Ha. unfold mem_read_spec.
  destruct (Z.eqb_spec a MR_KBSR); [contradiction | reflexivity].
Qed.

Lemma ldi_plain_memory fs instr m :
  switch_case (Z.shiftr instr 12) = Some OP_LDI ->
  wf m ->
  w16 (reg_get m R_PC + sign_extend (Z.land instr 0x1FF) 9) <> MR_KBSR ->
  w16 (mem_get m (w16 (reg_get m R_PC + sign_extend (Z.land instr 0x1FF) 9)))
    <> MR_KBSR ->
  exists m',
    exec (E := spec_external fs) instr m = Done true m' /\
    reg_get m' (field_dr instr) =
      w16 (mem_get m (w16 (mem_get m
             (w16 (reg_get m R_PC + sign_extend (Z.land instr 0x1FF) 9))))) /\
    memory m' = memory m.
Proof.
  intros Hop Hwf HA Hp.
  rewrite (exec_ldi (E := spec_external fs) _ _ Hop). cbv zeta.
  change (@mem_read (spec_external fs)) with mem_read_spec.
  rewrite (mem_read_spec_plain _ m HA). cbn [fst snd].
  rewrite (mem_read_spec_plain _ m Hp). cbn [fst snd].
  destruct (write_and_flag (field_dr instr)
              (mem_get m (w16 (mem_get m
                 (w16 (reg_get m R_PC + sign_extend (Z.land instr 0x1FF) 9)))))
              m Hwf (field_dr_range instr))
    as (_ & _ & Hval & _ & Hmem & _).
  eexists. split; [reflexivity |]. split; assumption.
Qed.

(** ** Further properties of sign_extend *)

(** The value [sign_extend] returns for a [w]-bit pattern is the pattern's
    signed reading, converted to [uint16_t]. *)
Lemma sign_extend_as_signed x w :
  1 <= w <= 16 -> 0 <= x < 2 ^ w -> sign_extend x w = w16 (signed w x).
Proof.
  intros Hw Hx. rewrite sign_extend_value by lia.
  pose proof (pow2_le_16 w ltac:(lia)) as Hle.
  unfold signed, w16.
  destruct (Z.ltb_spec x (2 ^ (w - 1))).
  - symmetry. apply Z.mod_small. lia.
  - apply (Z.mod_unique _ _ (-1)); lia.
Qed.

Lemma signed_range w x :
  1 <= w -> 0 <= x < 2 ^ w -> - 2 ^ (w - 1) <= signed w x < 2 ^ (w - 1).
Proof.
  intros Hw Hx. pose proof (pow2_split w Hw) as Hs. unfold signed.
  destruct (Z.ltb_spec x (2 ^ (w - 1))); lia.
Qed.

(** X1: extending twice is extending once.  The result of [sign_extend]
    already has its bits above [w-1] equal to bit [w-1], so a second call
    with the same width returns it unchanged. *)
Theorem sign_extend_idempotent x w :
  is_word x -> 1 <= w <= 15 ->
  sign_extend (sign_extend x w) w = sign_extend x w.
Proof.
  intros Hx Hw.
  assert (Hr : is_word (sign_extend x w)) by (apply sign_extend_word; [lia | exact Hx]).
  apply Z.bits_inj'. intros i Hi.
  destruct (Z.ltb_spec i 16) as [Hlt | Hge].
  - rewrite (sign_extend_testbit (sign_extend x w)) by (lia || assumption).
    rewrite !(sign_extend_testbit x) by (lia || assumption).
    destruct (Z.ltb_spec i w); [reflexivity |].
    destruct (Z.ltb_spec (w - 1) w); [| lia].
    destruct (Z.testbit x i), (Z.testbit x (w - 1)); reflexivity.
  - rewrite !word_high_bits; try reflexivity; try lia; try assumption.
    apply sign_extend_word; [lia | exact Hr].
Qed.

Lemma sign_extend_idempotent_witness :
  is_word 0x1B /\ 1 <= 5 <= 15 /\
  sign_extend (sign_extend 0x1B 5) 5 = sign_extend 0x1B 5 /\
  sign_extend 0x1B 5 = 0xFFFB.
Proof.
  assert (Hx : is_word 0x1B) by (unfold is_word; lia).
  assert (Hw : 1 <= 5 <= 15) by lia.
  split; [exact Hx | split; [exact Hw | split; [| reflexivity]]].
  exact (sign_extend_idempotent 0x1B 5 Hx Hw).
Defined.

(** X2: [sign_extend] never changes the low [w] bits: masking the result
    with the field mask gives back the field, whether or not the input had
    bits above it. *)
Theorem sign_extend_keeps_field x w :
  is_word x -> 1 <= w <= 16 ->
  Z.land (sign_extend x w) (mask w) = Z.land x (mask w).
Proof.
  intros Hx Hw. rewrite !land_mask by lia.
  apply Z.bits_inj'. intros i Hi.
  destruct (Z.ltb_spec i w) as [Hlt | Hge].
  - rewrite !Z.mod_pow2_bits_low by lia.
    rewrite sign_extend_testbit by (lia || assumption).
    destruct (Z.ltb_spec i w); [reflexivity | lia].
  - rewrite !Z.mod_pow2_bits_high by lia. reflexivity.
Qed.

Lemma sign_extend_keeps_field_witness :
  is_word 0xABDB /\ 1 <= 5 <= 16 /\
  Z.land (sign_extend 0xABDB 5) (mask 5) = Z.land 0xABDB (mask 5) /\
  Z.land 0xABDB (mask 5) = 0x1B.
Proof.
  assert (Hx : is_word 0xABDB) by (unfold is_word; lia).
  assert (Hw : 1 <= 5 <= 16) by lia.
  split; [exact Hx | split; [exact Hw | split; [| reflexivity]]].
  exact (sign_extend_keeps_field 0xABDB 5 Hx Hw).
Defined.

(** ** Arithmetic of ADD and AND *)

(** What an immediate-mode ADD or AND leaves in the machine: the destination
    written with the combined value, then the flags. *)
Lemma exec_add_imm {E : External} instr m :
  switch_case (Z.shiftr instr 12) = Some OP_ADD ->
  field_imm_flag instr = 1 ->
  exec instr m =
    Done true (update_flags (field_dr instr)
      (reg_set (field_dr instr)
         (reg_get m (field_sr1 instr) + sign_extend (Z.land instr 0x1F) 5) m)).
Proof.
  intros Hop Hf. rewrite (exec_add _ _ Hop). unfold operand2. rewrite Hf.
  reflexivity.
Qed.

Lemma exec_and_imm {E : External} instr m :
  switch_case (Z.shiftr instr 12) = Some OP_AND ->
  field_imm_flag instr = 1 ->
  exec instr m =
    Done true (update_flags (field_dr instr)
      (reg_set (field_dr instr)
         (Z.land (reg_get m (field_sr1 instr))
                 (sign_extend (Z.land instr 0x1F) 5)) m)).
Proof.
  intros Hop Hf. rewrite (exec_and _ _ Hop). unfold operand2. rewrite Hf.
  reflexivity.
Qed.

Lemma imm5_field_range instr : 0 <= Z.land instr 0x1F < 2 ^ 5.
Proof. apply (land_low_range _ 5). lia. Qed.

(** X3: an immediate-mode ADD adds to the first source the immediate field
    read as a signed 5-bit number, between -16 and 15, and the sum wraps
    modulo 65536. *)
Theorem add_immediate_signed {E : External} instr m :
  switch_case (Z.shiftr instr 12) = Some OP_ADD ->
  field_imm_flag instr = 1 ->
  wf m ->
  exists m',
    exec instr m = Done true m' /\
    -16 <= signed 5 (Z.land instr 0x1F) <= 15 /\
    reg_get m' (field_dr instr) =
      (reg_get m (field_sr1 instr) + signed 5 (Z.land instr 0x1F)) mod 65536.
Proof.
  intros Hop Hf Hwf.
  pose proof (imm5_field_range instr) as Hk.
  pose proof (signed_range 5 _ ltac:(lia) Hk) as Hs.
  change (2 ^ (5 - 1)) with 16 in Hs.
  rewrite (exec_add_imm _ _ Hop Hf).
  destruct (write_and_flag (field_dr instr)
              (reg_get m (field_sr1 instr) + sign_extend (Z.land instr 0x1F) 5)
              m Hwf (field_dr_range instr)) as (_ & _ & Hval & _).
  eexists. split; [reflexivity |]. split; [lia |].
  rewrite Hval. rewrite sign_extend_as_signed by (lia || exact Hk).
  unfold w16. apply Zplus_mod_idemp_r.
Qed.

Lemma add_immediate_signed_witness :
  switch_case (Z.shiftr 0x127B 12) = Some OP_ADD /\
  field_imm_flag 0x127B = 1 /\
  wf (reg_set 1 3 (power_on [])) /\
  signed 5 (Z.land 0x127B 0x1F) = -5 /\
  exists m',
    exec (E := spec_external demo_fs) 0x127B (reg_set 1 3 (power_on []))
      = Done true m' /\
    reg_get m' 1 = 0xFFFE.
Proof.
  assert (Hop : switch_case (Z.shiftr 0x127B 12) = Some OP_ADD) by reflexivity.
  assert (Hf : field_imm_flag 0x127B = 1) by reflexivity.
  assert (Hwf : wf (reg_set 1 3 (power_on []))) by reflexivity.
  split; [exact Hop | split; [exact Hf | split; [exact Hwf | split; [reflexivity |]]]].
  destruct (add_immediate_signed (E := spec_external demo_fs) 0x127B
              (reg_set 1 3 (power_on [])) Hop Hf Hwf) as (m' & Hex & _ & Hv).
  exists m'. split; [exact Hex | exact Hv].
Defined.

(** X4: AND with the immediate 0 clears the destination and sets ZERO,
    whatever the source register holds. *)
Theorem and_zero_clears {E : External} instr m :
  switch_case (Z.shiftr instr 12) = Some OP_AND ->
  field_imm_flag instr = 1 ->
  Z.land instr 0x1F = 0 ->
  wf m ->
  exists m',
    exec instr m = Done true m' /\
    reg_get m' (field_dr instr) = 0 /\
    reg_get m' R_COND = FL_ZRO.
Proof.
  intros Hop Hf Hk Hwf.
  rewrite (exec_and_imm _ _ Hop Hf), Hk.
  change (sign_extend 0 5) with 0. rewrite Z.land_0_r.
  destruct (write_and_flag (field_dr instr) 0 m Hwf (field_dr_range instr))
    as (_ & _ & Hval & Hflag & _).
  eexists. split; [reflexivity |]. split; [exact Hval | exact Hflag].
Qed.

Lemma and_zero_clears_witness :
  switch_case (Z.shiftr 0x5260 12) = Some OP_AND /\
  field_imm_flag 0x5260 = 1 /\ Z.land 0x5260 0x1F = 0 /\
  wf (reg_set 1 0xBEEF (power_on [])) /\
  exists m',
    exec (E := spec_external demo_fs) 0x5260 (reg_set 1 0xBEEF (power_on []))
      = Done true m' /\
    reg_get m' 1 = 0 /\ reg_get m' R_COND = FL_ZRO.
Proof.
  assert (Hop : switch_case (Z.shiftr 0x5260 12) = Some OP_AND) by reflexivity.
  assert (Hwf : wf (reg_set 1 0xBEEF (power_on []))) by reflexivity.
  split; [exact Hop | split; [reflexivity | split; [reflexivity | split; [exact Hwf |]]]].
  exact (and_zero_clears (E := spec_external demo_fs) 0x5260
           (reg_set 1 0xBEEF (power_on [])) Hop eq_refl eq_refl Hwf).
Defined.

(** X5: the two ways to copy a register.  ADD with the immediate 0 and AND
    with the immediate -1 (field 0x1F, extended to 0xFFFF) both put the
    source's 16-bit value in the destination and set the flags from it. *)
Theorem copy_by_add_zero_or_and_ones {E : External} instr m :
  (switch_case (Z.shiftr instr 12) = Some OP_ADD /\ Z.land instr 0x1F = 0) \/
  (switch_case (Z.shiftr instr 12) = Some OP_AND /\ Z.land instr 0x1F = 0x1F) ->
  field_imm_flag instr = 1 ->
  wf m ->
  is_word (reg_get m (field_sr1 instr)) ->
  exists m',
    exec instr m = Done true m' /\
    reg_get m' (field_dr instr) = reg_get m (field_sr1 instr) /\
    reg_get m' R_COND = flag_of (reg_get m (field_sr1 instr)).
Proof.
  intros Hcase Hf Hwf Hword.
  assert (Hshape : exists v,
            exec instr m = Done true
              (update_flags (field_dr instr) (reg_set (field_dr instr) v m)) /\
            w16 v = reg_get m (field_sr1 instr)).
  { destruct Hcase as [[Hop Hk] | [Hop Hk]]; eexists; (split; [| shelve]).
    - rewrite (exec_add_imm _ _ Hop Hf), Hk. reflexivity.
    - rewrite (exec_and_imm _ _ Hop Hf), Hk. reflexivity.
    Unshelve.
    + change (sign_extend 0 5) with 0. rewrite Z.add_0_r.
      apply w16_small, Hword.
    + change (sign_extend 31 5) with (Z.ones 16).
      rewrite Z.land_ones by lia. change (2 ^ 16) with 65536.
      fold (w16 (reg_get m (field_sr1 instr))).
      rewrite (w16_small _ Hword). apply w16_small, Hword. }
  destruct Hshape as (v & Hex & Hv).
  destruct (write_and_flag (field_dr instr) v m Hwf (field_dr_range instr))
    as (_ & _ & Hval & Hflag & _).
  eexists. split; [exact Hex |]. rewrite Hval, Hflag, Hv. auto.
Qed.

Lemma copy_by_add_zero_or_and_ones_witness :
  (switch_case (Z.shiftr 0x567F 12) = Some OP_AND /\ Z.land 0x567F 0x1F = 0x1F) /\
  field_imm_flag 0x567F = 1 /\
  wf (reg_set 1 0xBEEF (power_on [])) /\
  is_word (reg_get (reg_set 1 0xBEEF (power_on [])) (field_sr1 0x567F)) /\
  exists m',
    exec (E := spec_external demo_fs) 0x567F (reg_set 1 0xBEEF (power_on []))
      = Done true m' /\
    reg_get m' 3 = 0xBEEF /\ reg_get m' R_COND = FL_NEG.
Proof.
  assert (Hc : switch_case (Z.shiftr 0x567F 12) = Some OP_AND /\
               Z.land 0x567F 0x1F = 0x1F) by (split; reflexivity).
  assert (Hwf : wf (reg_set 1 0xBEEF (power_on []))) by reflexivity.
  assert (Hw : is_word (reg_get (reg_set 1 0xBEEF (power_on [])) (field_sr1 0x567F)))
    by (vm_compute; split; discriminate || reflexivity).
  split; [exact Hc | split; [reflexivity | split; [exact Hwf | split; [exact Hw |]]]].
  exact (copy_by_add_zero_or_and_ones (E := spec_external demo_fs) 0x567F
           (reg_set 1 0xBEEF (power_on [])) (or_intror Hc) eq_refl Hwf Hw).
Defined.

(** X6: in register mode the two source fields can be exchanged: ADD and
    AND give the same machine state with SR1 and SR2 swapped. *)
Theorem register_mode_commutes {E : External} instr_a instr_b m o :
  In o [OP_ADD; OP_AND] ->
  switch_case (Z.shiftr instr_a 12) = Some o ->
  switch_case (Z.shiftr instr_b 12) = Some o ->
  field_imm_flag instr_a = 0 ->
  field_imm_flag instr_b = 0 ->
  field_dr instr_a = field_dr instr_b ->
  field_sr1 instr_a = field_sr2 instr_b ->
  field_sr2 instr_a = field_sr1 instr_b ->
  exec instr_a m = exec instr_b m.
Proof.
  intros Hin Ha Hb Hfa Hfb Hdr H12 H21.
  destruct Hin as [<- | [<- | []]].
  - rewrite (exec_add _ _ Ha), (exec_add _ _ Hb). unfold operand2.
    rewrite Hfa, Hfb, Hdr, H12, H21. simpl. rewrite Z.add_comm. reflexivity.
  - rewrite (exec_and _ _ Ha), (exec_and _ _ Hb). unfold operand2.
    rewrite Hfa, Hfb, Hdr, H12, H21. simpl. rewrite Z.land_comm. reflexivity.
Qed.

Lemma register_mode_commutes_witness :
  In OP_ADD [OP_ADD; OP_AND] /\
  field_sr1 0x1642 = field_sr2 0x1681 /\ field_sr2 0x1642 = field_sr1 0x1681 /\
  exec (E := spec_external demo_fs) 0x1642 (reg_set 1 7 (reg_set 2 0xFFFB (power_on [])))
    = exec (E := spec_external demo_fs) 0x1681 (reg_set 1 7 (reg_set 2 0xFFFB (power_on []))).
Proof.
  assert (Hin : In OP_ADD [OP_ADD; OP_AND]) by (left; reflexivity).
  split; [exact Hin | split; [reflexivity | split; [reflexivity |]]].
  apply (register_mode_commutes (E := spec_external demo_fs) 0x1642 0x1681 _ OP_ADD Hin); reflexivity.
Defined.

(** The full effect of an immediate-mode ADD. *)
Lemma add_imm_effect {E : External} instr m :
  switch_case (Z.shiftr instr 12) = Some OP_ADD ->
  field_imm_flag instr = 1 ->
  wf m ->
  exists m',
    exec instr m = Done true m' /\ wf m' /\
    reg_get m' (field_dr instr) =
      (reg_get m (field_sr1 instr) + signed 5 (Z.land instr 0x1F)) mod 65536 /\
    reg_get m' R_COND =
      flag_of ((reg_get m (field_sr1 instr) + signed 5 (Z.land instr 0x1F)) mod 65536) /\
    memory m' = memory m /\ kbd m' = kbd m /\
    (forall r, 0 <= r -> r <> field_dr instr -> r <> R_COND ->
       reg_get m' r = reg_get m r).
Proof.
  intros Hop Hf Hwf.
  pose proof (imm5_field_range instr) as Hk.
  rewrite (exec_add_imm _ _ Hop Hf).
  destruct (write_and_flag (field_dr instr)
              (reg_get m (field_sr1 instr) + sign_extend (Z.land instr 0x1F) 5)
              m Hwf (field_dr_range instr))
    as (_ & Hwf' & Hval & Hflag & Hmem & Hkbd & Hother).
  assert (Hsum : w16 (reg_get m (field_sr1 instr) + sign_extend (Z.land instr 0x1F) 5)
                 = (reg_get m (field_sr1 instr) + signed 5 (Z.land instr 0x1F)) mod 65536).
  { rewrite sign_extend_as_signed by (lia || exact Hk).
    unfold w16. apply Zplus_mod_idemp_r. }
  rewrite Hsum in Hval, Hflag.
  eexists. split; [reflexivity |]. repeat split; assumption.
Qed.

(** X7: two immediate-mode ADDs on one register whose signed immediates
    cancel bring the register back to its 16-bit value, leave memory and
    every other general register and the PC as they were, and leave the
    flags of that value. *)
Theorem add_immediate_undo {E : External} instr1 instr2 m :
  switch_case (Z.shiftr instr1 12) = Some OP_ADD ->
  switch_case (Z.shiftr instr2 12) = Some OP_ADD ->
  field_imm_flag instr1 = 1 -> field_imm_flag instr2 = 1 ->
  field_sr1 instr1 = field_dr instr1 ->
  field_dr instr2 = field_dr instr1 ->
  field_sr1 instr2 = field_dr instr1 ->
  signed 5 (Z.land instr1 0x1F) + signed 5 (Z.land instr2 0x1F) = 0 ->
  wf m ->
  is_word (reg_get m (field_dr instr1)) ->
  exists m1 m2,
    exec instr1 m = Done true m1 /\
    exec instr2 m1 = Done true m2 /\
    reg_get m2 (field_dr instr1) = reg_get m (field_dr instr1) /\
    reg_get m2 R_COND = flag_of (reg_get m (field_dr instr1)) /\
    memory m2 = memory m /\
    (forall r, 0 <= r -> r <> R_COND -> reg_get m2 r = reg_get m r).
Proof.
  intros Hop1 Hop2 Hf1 Hf2 Hs1 Hd2 Hs2 Hcancel Hwf Hword.
  destruct (add_imm_effect instr1 m Hop1 Hf1 Hwf)
    as (m1 & Hex1 & Hwf1 & Hv1 & _ & Hmem1 & _ & Ho1).
  destruct (add_imm_effect instr2 m1 Hop2 Hf2 Hwf1)
    as (m2 & Hex2 & _ & Hv2 & Hc2 & Hmem2 & _ & Ho2).
  rewrite Hs1 in Hv1. rewrite Hs2, Hd2 in *. rewrite Hv1 in Hv2, Hc2.
  assert (Hback : ((reg_get m (field_dr instr1) + signed 5 (Z.land instr1 0x1F))
                     mod 65536 + signed 5 (Z.land instr2 0x1F)) mod 65536
                  = reg_get m (field_dr instr1)).
  { rewrite Zplus_mod_idemp_l.
    replace (reg_get m (field_dr instr1) + signed 5 (Z.land instr1 31)
             + signed 5 (Z.land instr2 31))
      with (reg_get m (field_dr instr1)) by lia.
    apply Z.mod_small. exact Hword. }
  rewrite Hback in Hv2, Hc2.
  exists m1, m2. split; [exact Hex1 |]. split; [exact Hex2 |].
  split; [exact Hv2 |]. split; [exact Hc2 |]. split; [congruence |].
  intros r Hr Hnc.
  destruct (Z.eq_dec r (field_dr instr1)) as [-> | Hne]; [exact Hv2 |].
  rewrite Ho2 by assumption. apply Ho1; assumption.
Qed.

Lemma add_immediate_undo_witness :
  signed 5 (Z.land 0x1265 0x1F) + signed 5 (Z.land 0x127B 0x1F) = 0 /\
  wf (reg_set 1 0xFFFE (power_on [])) /\
  is_word (reg_get (reg_set 1 0xFFFE (power_on [])) (field_dr 0x1265)) /\
  exists m1 m2,
    exec (E := spec_external demo_fs) 0x1265 (reg_set 1 0xFFFE (power_on []))
      = Done true m1 /\
    exec (E := spec_external demo_fs) 0x127B m1 = Done true m2 /\
    reg_get m2 1 = 0xFFFE.
Proof.
  assert (Hc : signed 5 (Z.land 0x1265 0x1F) + signed 5 (Z.land 0x127B 0x1F) = 0)
    by reflexivity.
  assert (Hwf : wf (reg_set 1 0xFFFE (power_on []))) by reflexivity.
  assert (Hw : is_word (reg_get (reg_set 1 0xFFFE (power_on [])) (field_dr 0x1265)))
    by (vm_compute; split; discriminate || reflexivity).
  split; [exact Hc | split; [exact Hwf | split; [exact Hw |]]].
  destruct (add_immediate_undo (E := spec_external demo_fs) 0x1265 0x127B
              (reg_set 1 0xFFFE (power_on []))
              eq_refl eq_refl eq_refl eq_refl eq_refl eq_refl eq_refl Hc Hwf Hw)
    as (m1 & m2 & H1 & H2 & Hv & _).
  exists m1, m2. split; [exact H1 | split; [exact H2 | exact Hv]].
Defined.

(** ** Decoding *)

Lemma switch_case_value n o : switch_case n = Some o -> opcode_value o = n.
Proof.
  intros H. unfold switch_case in H.
  repeat match type of H with
         | match ?p with _ => _ end = _ => destruct p; try discriminate H
         end;
    inversion H; reflexivity.
Qed.

(** The opcode field of a 16-bit word selects one of the sixteen cases. *)
Lemma word_has_case v :
  exists o, switch_case (Z.shiftr (w16 v) 12) = Some o /\
            opcode_value o = Z.shiftr (w16 v) 12.
Proof.
  pose proof (w16_range v) as Hv. unfold is_word in Hv.
  assert (Hq : 0 <= Z.shiftr (w16 v) 12 < 16).
  { rewrite Z.shiftr_div_pow2 by lia. change (2 ^ 12) with 4096. split.
    - apply Z.div_pos; lia.
    - apply Z.div_lt_upper_bound; lia. }
  assert (Hex : exists o, switch_case (Z.shiftr (w16 v) 12) = Some o).
  { destruct (Z.shiftr (w16 v) 12) as [| p | p]; [eauto | | lia].
    do 4 (destruct p as [p | p |]; try lia; simpl; eauto). }
  destruct Hex as [o Ho]. exists o. split; [exact Ho | apply switch_case_value, Ho].
Qed.

(** X8: the switch never reaches [default].  The opcode of a 16-bit word
    is one of the sixteen enumerators, [switch_case] and the enumerators'
    values are inverse to each other, and no value outside 0..15 has a
    case. *)
Theorem switch_case_total :
  (forall o, switch_case (opcode_value o) = Some o) /\
  (forall n o, switch_case n = Some o -> opcode_value o = n) /\
  (forall v, exists o,
     switch_case (Z.shiftr (w16 v) 12) = Some o /\
     opcode_value o = Z.shiftr (w16 v) 12).
Proof.
  split; [intros []; reflexivity |].
  split; [exact switch_case_value | exact word_has_case].
Qed.

(** ** How a pass through the loop can end *)

(** The cases written out in lc3.c always reach the closing brace with
    [running] still set. *)
Lemma exec_implemented_continues {E : External} instr m o :
  switch_case (Z.shiftr instr 12) = Some o ->
  In o [OP_ADD; OP_AND; OP_LDI] ->
  exists m', exec instr m = Done true m'.
Proof.
  intros Hop [<- | [<- | [<- | []]]].
  - rewrite (exec_add _ _ Hop). eauto.
  - rewrite (exec_and _ _ Hop). eauto.
  - rewrite (exec_ldi _ _ Hop). cbv zeta. eauto.
Qed.

(** A word whose case is a placeholder is handed to the placeholder's
    body. *)
Lemma exec_placeholder {E : External} instr m o :
  switch_case (Z.shiftr instr 12) = Some o ->
  placeholder o ->
  exec instr m = op_body o instr m.
Proof.
  intros Hop Hp. unfold exec. rewrite Hop.
  destruct o; try reflexivity; exfalso; apply Hp; simpl; tauto.
Qed.

(** X9: where the loop can stop.  [abort()] is reached only on a word with
    a reserved opcode, with the state as the fetch left it, or from inside
    a placeholder body; [running] is cleared only inside a placeholder
    body.  ADD, AND and LDI do neither. *)
Theorem cycle_outcomes {E : External} m v m1 :
  mem_read (w16 (reg_get m R_PC)) (reg_set R_PC (reg_get m R_PC + 1) m) = (v, m1) ->
  (forall m', cycle m = Abort m' ->
     (m' = m1 /\
      (Z.shiftr (w16 v) 12 = opcode_value OP_RTI \/
       Z.shiftr (w16 v) 12 = opcode_value OP_RES)) \/
     (exists o, switch_case (Z.shiftr (w16 v) 12) = Some o /\ placeholder o /\
                op_body o (w16 v) m1 = Abort m')) /\
  (forall m', cycle m = Done false m' ->
     exists o, switch_case (Z.shiftr (w16 v) 12) = Some o /\ placeholder o /\
               op_body o (w16 v) m1 = Done false m').
Proof.
  intros Hfetch.
  assert (Hc : cycle m = exec (w16 v) m1) by (unfold cycle; rewrite Hfetch; reflexivity).
  rewrite Hc.
  destruct (word_has_case v) as (o & Ho & Hval).
  assert (Hcases : In o [OP_ADD; OP_AND; OP_LDI] \/ In o [OP_RTI; OP_RES] \/ placeholder o).
  { unfold placeholder. destruct o; simpl; intuition congruence. }
  destruct Hcases as [Himpl | [Hres | Hph]].
  - destruct (exec_implemented_continues (w16 v) m1 o Ho Himpl) as [m2 H2].
    rewrite H2. split; intros m' H; discriminate H.
  - assert (Hr : Z.shiftr (w16 v) 12 = opcode_value OP_RTI \/
                 Z.shiftr (w16 v) 12 = opcode_value OP_RES).
    { rewrite <- Hval. destruct Hres as [<- | [<- | []]]; auto. }
    rewrite (exec_reserved _ _ Hr). split; intros m' H.
    + left. inversion H; subst. auto.
    + discriminate H.
  - rewrite (exec_placeholder _ _ _ Ho Hph). split; intros m' H.
    + right. exists o. auto.
    + exists o. auto.
Qed.

Lemma cycle_outcomes_witness :
  mem_read (External := spec_external demo_fs) (w16 (reg_get rti_machine R_PC))
    (reg_set R_PC (reg_get rti_machine R_PC + 1) rti_machine)
    = (0x8000, reg_set R_PC 0x3001 rti_machine) /\
  cycle (E := spec_external demo_fs) rti_machine
    = Abort (reg_set R_PC 0x3001 rti_machine) /\
  ((reg_set R_PC 0x3001 rti_machine = reg_set R_PC 0x3001 rti_machine /\
    (Z.shiftr (w16 0x8000) 12 = opcode_value OP_RTI \/
     Z.shiftr (w16 0x8000) 12 = opcode_value OP_RES)) \/
   (exists o, switch_case (Z.shiftr (w16 0x8000) 12) = Some o /\ placeholder o /\
              op_body (External := spec_external demo_fs) o (w16 0x8000)
                (reg_set R_PC 0x3001 rti_machine)
              = Abort (reg_set R_PC 0x3001 rti_machine))).
Proof.
  split; [reflexivity |]. split; [reflexivity |].
  exact (proj1 (cycle_outcomes (E := spec_external demo_fs) rti_machine 0x8000
                  (reg_set R_PC 0x3001 rti_machine) eq_refl)
           (reg_set R_PC 0x3001 rti_machine) eq_refl).
Defined.



(** ** The program counter *)

Lemma reg_get_same_reg m m' r : reg m' = reg m -> reg_get m' r = reg_get m r.
Proof. unfold reg_get. intros ->. reflexivity. Qed.

Lemma wf_same_reg m m' : reg m' = reg m -> wf m -> wf m'.
Proof. unfold wf. intros ->. trivial. Qed.

(** X11: a pass through the loop that executes ADD, AND or LDI leaves the
    PC one past the fetched word, modulo 65536 (from 0xFFFF it goes to 0),
    when [mem_read] does not write registers. *)
Theorem implemented_cycle_advances_pc {E : External} m v m1 o :
  (forall a s, reg (mem_read a s).2 = reg s) ->
  wf m ->
  mem_read (w16 (reg_get m R_PC)) (reg_set R_PC (reg_get m R_PC + 1) m) = (v, m1) ->
  switch_case (Z.shiftr (w16 v) 12) = Some o ->
  In o [OP_ADD; OP_AND; OP_LDI] ->
  exists m',
    cycle m = Done true m' /\
    reg_get m' R_PC = w16 (reg_get m R_PC + 1).
Proof.
  intros Hregs Hwf Hfetch Hop Hin.
  assert (Hc : cycle m = exec (w16 v) m1)
    by (unfold cycle; rewrite Hfetch; reflexivity).
  assert (Hr1 : reg m1 = reg (reg_set R_PC (reg_get m R_PC + 1) m)).
  { replace m1 with (mem_read (w16 (reg_get m R_PC))
                       (reg_set R_PC (reg_get m R_PC + 1) m)).2
      by (rewrite Hfetch; reflexivity).
    apply Hregs. }
  assert (Hwf1 : wf m1) by (apply (wf_same_reg _ _ Hr1), reg_set_wf, Hwf).
  assert (Hpc1 : reg_get m1 R_PC = w16 (reg_get m R_PC + 1)).
  { rewrite (reg_get_same_reg _ _ _ Hr1).
    apply reg_get_set_eq; [exact Hwf | unfold R_PC, R_COUNT; lia]. }
  pose proof (field_dr_range (w16 v)) as Hdr.
  rewrite Hc. rewrite <- Hpc1.
  assert (Hshape : exists x m0,
            exec (w16 v) m1 = Done true
              (update_flags (field_dr (w16 v)) (reg_set (field_dr (w16 v)) x m0)) /\
            reg m0 = reg m1).
  { destruct Hin as [<- | [<- | [<- | []]]].
    - eexists _, m1. split; [apply exec_add, Hop | reflexivity].
    - eexists _, m1. split; [apply exec_and, Hop | reflexivity].
    - rewrite (exec_ldi _ _ Hop). cbv zeta.
      eexists _, _. split; [reflexivity |]. rewrite !Hregs. reflexivity. }
  destruct Hshape as (x & m0 & Hex & Hr0).
  destruct (write_and_flag (field_dr (w16 v)) x m0
              (wf_same_reg _ _ Hr0 Hwf1) Hdr) as (_ & _ & _ & _ & _ & _ & Hother).
  eexists. split; [exact Hex |].
  rewrite Hother by (unfold R_PC, R_COND; lia).
  apply reg_get_same_reg, Hr0.
Qed.

Lemma mem_read_spec_regs a s : reg (mem_read_spec a s).2 = reg s.
Proof.
  unfold mem_read_spec. simpl.
  destruct (a =? MR_KBSR); [destruct (kbd s) |]; reflexivity.
Qed.

Lemma implemented_cycle_advances_pc_witness :
  wf add5_machine /\
  switch_case (Z.shiftr (w16 0x1025) 12) = Some OP_ADD /\
  In OP_ADD [OP_ADD; OP_AND; OP_LDI] /\
  exists m',
    cycle (E := spec_external demo_fs) add5_machine = Done true m' /\
    reg_get m' R_PC = 0x3001.
Proof.
  assert (Hwf : wf add5_machine) by reflexivity.
  assert (Hin : In OP_ADD [OP_ADD; OP_AND; OP_LDI]) by (left; reflexivity).
  split; [exact Hwf | split; [reflexivity | split; [exact Hin |]]].
  exact (implemented_cycle_advances_pc (E := spec_external demo_fs)
           add5_machine 0x1025 (reg_set R_PC 0x3001 add5_machine) OP_ADD
           mem_read_spec_regs Hwf eq_refl eq_refl Hin).
Defined.

(** ** Registers stay 16-bit *)

Lemma regs_ok_same_reg m m' : reg m' = reg m -> regs_ok m -> regs_ok m'.
Proof. unfold regs_ok, wf. intros ->. trivial. Qed.

Lemma regs_ok_reg_set r v m : regs_ok m -> regs_ok (reg_set r v m).
Proof.
  intros [Hwf Hall]. split; [apply reg_set_wf, Hwf |].
  unfold reg_set. simpl. apply Forall_insert; [exact Hall | apply w16_range].
Qed.

Lemma regs_ok_update_flags r m : regs_ok m -> regs_ok (update_flags r m).
Proof.
  intros H. unfold update_flags.
  destruct (reg_get m r =? 0); [apply regs_ok_reg_set, H |].
  destruct (negb _); apply regs_ok_reg_set, H.
Qed.

Lemma regs_ok_power_on input : regs_ok (power_on input).
Proof.
  split; [reflexivity |]. unfold power_on, is_word. simpl.
  repeat constructor; lia.
Qed.

Section RegisterInvariant.
Context {E : External}.
Hypothesis mem_read_ok : forall a s, regs_ok s -> regs_ok (mem_read a s).2.
Hypothesis op_body_ok :
  forall o i s, regs_ok s -> regs_ok (outcome_state (op_body o i s)).
Hypothesis read_image_ok :
  forall p s s', regs_ok s -> read_image p s = Some s' -> regs_ok s'.

Lemma exec_regs_ok instr m : regs_ok m -> regs_ok (outcome_state (exec instr m)).
Proof.
  intros Hm. unfold exec.
  destruct (switch_case (Z.shiftr instr 12)) as [o |]; [| exact Hm].
  destruct o; try (apply op_body_ok, Hm); try exact Hm.
  - destruct (negb (field_imm_flag instr =? 0));
      apply regs_ok_update_flags, regs_ok_reg_set, Hm.
  - destruct (negb (field_imm_flag instr =? 0));
      apply regs_ok_update_flags, regs_ok_reg_set, Hm.
  - pose proof (mem_read_ok
        (w16 (reg_get m R_PC + sign_extend (Z.land instr 0x1FF) 9)) m Hm) as H1.
    destruct (mem_read _ m) as [a m1]. simpl in H1.
    pose proof (mem_read_ok (w16 a) m1 H1) as H2.
    destruct (mem_read (w16 a) m1) as [x m2]. simpl in H2.
    apply regs_ok_update_flags, regs_ok_reg_set, H2.
Qed.

Lemma cycle_regs_ok m : regs_ok m -> regs_ok (outcome_state (cycle m)).
Proof.
  intros Hm. unfold cycle.
  pose proof (mem_read_ok (w16 (reg_get m R_PC))
                (reg_set R_PC (reg_get m R_PC + 1) m)
                (regs_ok_reg_set _ _ _ Hm)) as H1.
  destruct (mem_read _ _) as [v m1]. simpl in H1.
  apply exec_regs_ok, H1.
Qed.

Lemma run_regs_ok fuel m : regs_ok m -> regs_ok (run fuel m).1.2.
Proof.
  revert m. induction fuel as [| fuel IH]; intros m Hm; simpl; [exact Hm |].
  pose proof (cycle_regs_ok m Hm) as Hc.
  destruct (cycle m) as [[|] m' | m']; simpl in Hc; try exact Hc.
  specialize (IH m' Hc). destruct (run fuel m') as [[e mf] n]. exact IH.
Qed.

Lemma load_images_regs_ok paths m m' :
  regs_ok m -> load_images paths m = inr m' -> regs_ok m'.
Proof.
  revert m. induction paths as [| p paths IH]; intros m Hm H; simpl in H.
  - inversion H; subst. exact Hm.
  - destruct (read_image p m) as [m1 |] eqn:Hp; [| discriminate].
    apply (IH m1); [apply (read_image_ok p m m1 Hm Hp) | exact H].
Qed.

(** X12: every register holds a 16-bit value whenever the process stops.
    If the absent functions keep the ten registers within 16 bits, so do
    the loader loop, the setup, the fetch and the ADD, AND and LDI cases:
    the machine [main] ends with has ten registers, all below 65536. *)
Theorem registers_stay_words fuel argv input mf :
  final (main fuel argv input) = Some mf -> regs_ok mf.
Proof.
  unfold main, startup.
  destruct (Z.of_nat (length argv) <? 2); [discriminate |].
  destruct (load_images (tail argv) (power_on input)) as [p | m0] eqn:Hl;
    [discriminate |].
  pose proof (load_images_regs_ok _ _ _ (regs_ok_power_on input) Hl) as H0.
  pose proof (run_regs_ok fuel
                (reg_set R_PC PC_START (reg_set R_COND FL_ZRO m0))
                (regs_ok_reg_set _ _ _ (regs_ok_reg_set _ _ _ H0))) as Hrun.
  destruct (run fuel _) as [[e mf'] n]. simpl in Hrun.
  destruct e; intros H; inversion H; subst; exact Hrun.
Qed.

End RegisterInvariant.

Lemma op_body_spec_ok o i s :
  regs_ok s -> regs_ok (outcome_state (op_body_spec o i s)).
Proof.
  intros Hs.
  assert (Hrd : forall a m, regs_ok m -> regs_ok (mem_read_spec a m).2).
  { intros a m. apply regs_ok_same_reg, mem_read_spec_regs. }
  unfold op_body_spec, trap_spec.
  destruct o; cbn -[mem_read_spec update_flags reg_set mem_set]; try exact Hs;
    repeat match goal with
    | |- regs_ok (outcome_state (if ?c then _ else _)) => destruct c; cbn -[mem_read_spec update_flags reg_set mem_set]
    | |- regs_ok (outcome_state (match kbd ?m with _ => _ end)) =>
        destruct (kbd m); cbn -[mem_read_spec update_flags reg_set mem_set]
    | |- regs_ok (outcome_state (let '(_, _) := mem_read_spec ?a ?m in _)) =>
        let H := fresh in
        pose proof (Hrd a m Hs) as H;
        destruct (mem_read_spec a m); simpl in H; cbn -[mem_read_spec update_flags reg_set mem_set]
    | |- regs_ok (update_flags _ _) => apply regs_ok_update_flags
    | |- regs_ok (reg_set _ _ _) => apply regs_ok_reg_set
    | |- regs_ok (mem_set _ _ _) => apply (regs_ok_same_reg _ _ eq_refl)
    | |- regs_ok {| memory := _; reg := reg ?m; kbd := _ |} =>
        apply (regs_ok_same_reg m _ eq_refl)
    end; try assumption.
Qed.

Lemma read_image_spec_ok fs p s s' :
  regs_ok s -> read_image_spec fs p s = Some s' -> regs_ok s'.
Proof.
  intros Hs H. destruct (read_image_spec_frame _ _ _ _ H) as (Hr & _).
  apply (regs_ok_same_reg _ _ Hr Hs).
Qed.

Lemma registers_stay_words_witness :
  exists mf,
    final (main (E := spec_external demo_fs) 9 ["lc3"; "add5.obj"]%string []) = Some mf /\
    regs_ok mf /\ reg_get mf R_R0 = 5.
Proof.
  eexists. split; [reflexivity |]. split; [| reflexivity].
  apply (registers_stay_words (E := spec_external demo_fs)
           (fun a s => regs_ok_same_reg s _ (mem_read_spec_regs a s))
           op_body_spec_ok (read_image_spec_ok demo_fs)
           9 ["lc3"; "add5.obj"]%string []).
  reflexivity.
Defined.

(** ** The process as a whole *)

(** X13: the terminal calls of [main].  Raw mode is entered exactly when
    every image loaded, [restore_input_buffering] is called exactly when
    the process ends with status 0, and never without
    [disable_input_buffering] before it; the SIGINT handler is installed
    with the first of them. *)
Theorem terminal_calls {E : External} fuel argv input :
  (In EvDisableInputBuffering (trace (main fuel argv input)) <->
     exists m, startup argv input = Ready m) /\
  (In EvRestoreInputBuffering (trace (main fuel argv input)) <->
     status (main fuel argv input) = Exited 0) /\
  (forall m, startup argv input = Ready m ->
     exists rest,
       trace (main fuel argv input) = EvSignal :: EvDisableInputBuffering :: rest /\
       (rest = [] \/ rest = [EvRestoreInputBuffering])).
Proof.
  unfold main.
  destruct (startup argv input) as [| p | m]; simpl.
  - split; [| split]; try (intros ? ?; discriminate).
    + split; [intros [H | []]; discriminate | intros [m H]; discriminate].
    + split; [intros [H | []]; discriminate | discriminate].
  - split; [| split]; try (intros ? ?; discriminate).
    + split; [intros [H | []]; discriminate | intros [m H]; discriminate].
    + split; [intros [H | []]; discriminate | discriminate].
  - destruct (run fuel m) as [[[] mf] n]; simpl.
    all: split; [split; [eauto | auto] | split].
    all: try (split; [intros [H | [H | [H | []]]]; first [discriminate | reflexivity]
                     | intros _; auto]).
    all: try (split; [intros [H | [H | []]]; discriminate | discriminate]).
    all: intros m0 _; eexists; split; [reflexivity | auto].
Qed.

(** X14: the exit status tells what happened.  Status 2 is given exactly
    for fewer than two arguments, status 1 exactly when there are image
    arguments and the load loop stops at one of them; [main] gives no exit
    status other than 0, 1 and 2, and a process that aborts or is still
    running loaded every image. *)
Theorem exit_status_classified {E : External} fuel argv input :
  (status (main fuel argv input) = Exited 2 <-> (length argv < 2)%nat) /\
  (status (main fuel argv input) = Exited 1 <->
     (2 <= length argv)%nat /\
     exists p, load_images (tail argv) (power_on input) = inl p) /\
  (forall c, status (main fuel argv input) = Exited c -> c = 0 \/ c = 1 \/ c = 2) /\
  (status (main fuel argv input) = Aborted \/
   status (main fuel argv input) = Unfinished ->
     exists m, load_images (tail argv) (power_on input) = inr m).
Proof.
  unfold main, startup.
  destruct (Z.ltb_spec (Z.of_nat (length argv)) 2) as [Hlt | Hge]; simpl.
  - split; [split; [lia | reflexivity] |].
    split; [split; [discriminate | lia] |].
    split; [intros c H; inversion H; auto | intros [H | H]; discriminate].
  - destruct (load_images (tail argv) (power_on input)) as [p | m0]; simpl.
    + split; [split; [discriminate | lia] |].
      split; [split; [intros _; split; [lia | eauto] | reflexivity] |].
      split; [intros c H; inversion H; auto | intros [H | H]; discriminate].
    + destruct (run fuel _) as [[[] mf] n]; simpl.
      all: split; [split; [discriminate | lia] |].
      all: split; [split; [discriminate | intros [_ [p Hp]]; discriminate] |].
      all: split; [intros c H; inversion H; auto | intros _; eauto].
Qed.

(** X15: the setup overrides whatever the loader left in the PC and the
    condition register.  For any loader that keeps the register array's
    size, the state handed to the loop has PC = 0x3000 and COND = ZERO,
    and memory, the input device and R0 to R7 as the last load left them. *)
Theorem setup_overrides_loader {E : External} argv input m :
  (forall p s s', read_image p s = Some s' -> length (reg s') = length (reg s)) ->
  startup argv input = Ready m ->
  reg_get m R_PC = PC_START /\
  reg_get m R_COND = FL_ZRO /\
  wf m /\
  exists m0,
    load_images (tail argv) (power_on input) = inr m0 /\
    memory m = memory m0 /\ kbd m = kbd m0 /\
    (forall r, R_R0 <= r <= R_R7 -> reg_get m r = reg_get m0 r).
Proof.
  intros Hlen. unfold startup.
  destruct (Z.of_nat (length argv) <? 2); [discriminate |].
  destruct (load_images (tail argv) (power_on input)) as [p | m0] eqn:Hl;
    [discriminate |].
  intros H. inversion H; subst; clear H.
  assert (Hwf0 : wf m0).
  { assert (Hgen : forall paths s s',
              load_images paths s = inr s' -> length (reg s') = length (reg s)).
    { induction paths as [| q paths IH]; intros s s' Hs; simpl in Hs.
      - inversion Hs; reflexivity.
      - destruct (read_image q s) as [s1 |] eqn:Hq; [| discriminate].
        rewrite (IH _ _ Hs). apply (Hlen _ _ _ Hq). }
    unfold wf. rewrite (Hgen _ _ _ Hl). reflexivity. }
  assert (Hwf1 : wf (reg_set R_COND FL_ZRO m0)) by apply reg_set_wf, Hwf0.
  split.
  { rewrite reg_get_set_eq; [reflexivity | exact Hwf1 | unfold R_PC, R_COUNT; lia]. }
  split.
  { rewrite reg_get_set_ne by (unfold R_PC, R_COND; lia).
    rewrite reg_get_set_eq; [reflexivity | exact Hwf0 | unfold R_COND, R_COUNT; lia]. }
  split; [apply reg_set_wf, Hwf1 |].
  exists m0. split; [reflexivity |]. split; [reflexivity |]. split; [reflexivity |].
  unfold R_R0, R_R7. intros r Hr.
  rewrite !reg_get_set_ne by (unfold R_PC, R_COND; lia). reflexivity.
Qed.

Lemma read_image_spec_length fs p s s' :
  read_image_spec fs p s = Some s' -> length (reg s') = length (reg s).
Proof.
  intros H. destruct (read_image_spec_frame _ _ _ _ H) as (Hr & _).
  rewrite Hr. reflexivity.
Qed.

Lemma setup_overrides_loader_witness :
  startup (E := spec_external demo_fs) ["lc3"; "add5.obj"]%string [] = Ready add5_machine /\
  reg_get add5_machine R_PC = PC_START /\
  reg_get add5_machine R_COND = FL_ZRO.
Proof.
  assert (Hs : startup (E := spec_external demo_fs) ["lc3"; "add5.obj"]%string []
               = Ready add5_machine) by reflexivity.
  split; [exact Hs |].
  destruct (setup_overrides_loader (E := spec_external demo_fs)
              ["lc3"; "add5.obj"]%string [] add5_machine
              (read_image_spec_length demo_fs) Hs) as (Hpc & Hc & _).
  split; [exact Hpc | exact Hc].
Defined.

(** ** update_flags on its own *)

(** X16: [update_flags] writes the condition register and nothing else,
    and calling it again for the same general register changes nothing:
    the flags depend only on the value the register holds now. *)
Theorem update_flags_frame_idempotent r m :
  wf m -> 0 <= r < 8 ->
  memory (update_flags r m) = memory m /\
  kbd (update_flags r m) = kbd m /\
  (forall r', 0 <= r' -> r' <> R_COND ->
     reg_get (update_flags r m) r' = reg_get m r') /\
  In (reg_get (update_flags r m) R_COND) [FL_ZRO; FL_NEG; FL_POS] /\
  update_flags r (update_flags r m) = update_flags r m.
Proof.
  intros Hwf Hr.
  assert (Hshape : exists f, In f [FL_ZRO; FL_NEG; FL_POS] /\
                     update_flags r m = reg_set R_COND f m).
  { unfold update_flags.
    destruct (reg_get m r =? 0); [exists FL_ZRO; simpl; auto |].
    destruct (negb _); [exists FL_NEG | exists FL_POS]; simpl; auto. }
  destruct Hshape as (f & Hf & Heq).
  assert (Hsame : reg_get (update_flags r m) r = reg_get m r).
  { rewrite Heq. apply reg_get_set_ne; unfold R_COND; lia. }
  split; [rewrite Heq; reflexivity |].
  split; [rewrite Heq; reflexivity |].
  split.
  { intros r' Hr' Hne. rewrite Heq. apply reg_get_set_ne; unfold R_COND in *; lia. }
  split.
  { rewrite Heq, reg_get_set_eq by (assumption || (unfold R_COND, R_COUNT; lia)).
    destruct Hf as [<- | [<- | [<- | []]]]; simpl; auto. }
  unfold update_flags at 1. rewrite Hsame.
  assert (Hset : forall g, In g [FL_ZRO; FL_NEG; FL_POS] ->
            update_flags r m = reg_set R_COND g m ->
            reg_set R_COND g (update_flags r m) = update_flags r m).
  { intros g Hg Hg'. rewrite Hg'.
    unfold reg_set. simpl. rewrite list_insert_insert_eq. reflexivity. }
  clear Heq Hsame. unfold update_flags in Hset |- *.
  destruct (reg_get m r =? 0).
  - apply (Hset FL_ZRO); simpl; auto.
  - destruct (negb _).
    + apply (Hset FL_NEG); simpl; auto.
    + apply (Hset FL_POS); simpl; auto.
Qed.

Lemma update_flags_frame_idempotent_witness :
  wf (reg_set 3 0x8001 (power_on [])) /\ 0 <= 3 < 8 /\
  reg_get (update_flags 3 (reg_set 3 0x8001 (power_on []))) R_COND = FL_NEG /\
  update_flags 3 (update_flags 3 (reg_set 3 0x8001 (power_on [])))
    = update_flags 3 (reg_set 3 0x8001 (power_on [])).
Proof.
  assert (Hwf : wf (reg_set 3 0x8001 (power_on []))) by reflexivity.
  assert (Hr : 0 <= 3 < 8) by lia.
  split; [exact Hwf | split; [exact Hr | split; [reflexivity |]]].
  exact (proj2 (proj2 (proj2 (proj2
           (update_flags_frame_idempotent 3 _ Hwf Hr))))).
Defined.

(** ** The last theorems at concrete inputs *)

Lemma switch_case_total_witness :
  switch_case 10 = Some OP_LDI /\ opcode_value OP_LDI = 10 /\
  exists o, switch_case (Z.shiftr (w16 0xA001) 12) = Some o /\
            opcode_value o = Z.shiftr (w16 0xA001) 12.
Proof.
  assert (H10 : switch_case 10 = Some OP_LDI) by reflexivity.
  destruct switch_case_total as (_ & Hinv & Hword).
  split; [exact H10 | split; [exact (Hinv 10 OP_LDI H10) | exact (Hword 0xA001)]].
Defined.

Lemma terminal_calls_witness :
  startup (E := spec_external demo_fs) ["lc3"; "rti.obj"]%string [] = Ready rti_machine /\
  exists rest,
    trace (main (E := spec_external demo_fs) 3 ["lc3"; "rti.obj"]%string [])
      = EvSignal :: EvDisableInputBuffering :: rest /\
    (rest = [] \/ rest = [EvRestoreInputBuffering]).
Proof.
  assert (Hs : startup (E := spec_external demo_fs) ["lc3"; "rti.obj"]%string []
               = Ready rti_machine) by reflexivity.
  split; [exact Hs |].
  exact (proj2 (proj2 (terminal_calls (E := spec_external demo_fs) 3
                         ["lc3"; "rti.obj"]%string [])) rti_machine Hs).
Defined.

Lemma exit_status_classified_witness :
  (2 <= length ["lc3"; "nofile"]%string)%nat /\
  (exists p, load_images (E := spec_external demo_fs)
               (tail ["lc3"; "nofile"]%string) (power_on []) = inl p) /\
  status (main (E := spec_external demo_fs) 3 ["lc3"; "nofile"]%string []) = Exited 1.
Proof.
  assert (Hlen : (2 <= length ["lc3"; "nofile"]%string)%nat) by (simpl; lia).
  assert (Hl : exists p, load_images (E := spec_external demo_fs)
                 (tail ["lc3"; "nofile"]%string) (power_on []) = inl p)
    by (exists "nofile"%string; reflexivity).
  split; [exact Hlen | split; [exact Hl |]].
  exact (proj2 (proj1 (proj2 (exit_status_classified (E := spec_external demo_fs) 3
                                ["lc3"; "nofile"]%string []))) (conj Hlen Hl)).
Defined.
